(** * CA Guide: the quiz session engine and the lesson-section parser

    A shallow embedding of the state logic of [App] (the exam state, its
    handlers and the countdown timer), of the percentage shown by
    [ResultsScreen], and of [parseMarkdownToSections] from [ClassesScreen],
    followed by the properties proved about them.

    Conventions.
    - A JavaScript string is the list of its UTF-16 code units ([list N]).
    - The JavaScript numbers held in the exam state (indices, seconds,
      scores) are integers; they are modelled as [Z].  The one place where
      the source divides, the percentage of the results view, is modelled
      with binary64 floats.
    - [answers] and [flagged] are objects used as maps from a question
      index to a value; they are modelled as [gmap Z _], a missing key
      being JavaScript's [undefined]. *)

From Stdlib Require Import ZArith NArith List String Ascii Lia.
From Stdlib Require Import Floats Uint63.
From stdpp Require Import gmap list.
Import ListNotations.

Local Open Scope Z_scope.

(* ===================================================================== *)
(** ** JavaScript strings *)
(* ===================================================================== *)

Module Js.

Abbreviation jsstring := (list N).

(** A literal with ASCII characters only, as its code units. *)
Definition lit (s : string) : jsstring :=
  map N_of_ascii (list_ascii_of_string s).

(** The line feed, ["\n"]. *)
Definition LF : N := 10%N.

(** ECMAScript [WhiteSpace] and [LineTerminator] code points, the ones
    [String.prototype.trim] strips.  All of them lie in the basic
    multilingual plane, so the test is per code unit. *)
Definition isWhiteSpace (c : N) : bool :=
  ((c =? 9) || (c =? 10) || (c =? 11) || (c =? 12) || (c =? 13) ||
   (c =? 32) || (c =? 160) || (c =? 5760) ||
   ((8192 <=? c) && (c <=? 8202)) ||
   (c =? 8232) || (c =? 8233) || (c =? 8239) || (c =? 8287) ||
   (c =? 12288) || (c =? 65279))%N.

Fixpoint trimStart (s : jsstring) : jsstring :=
  match s with
  | [] => []
  | c :: s' => if isWhiteSpace c then trimStart s' else s
  end.

Definition trimEnd (s : jsstring) : jsstring :=
  rev (trimStart (rev s)).

(** [s.trim()] *)
Definition trim (s : jsstring) : jsstring := trimEnd (trimStart s).

(** [s.startsWith(p)] *)
Fixpoint startsWith (p s : jsstring) : bool :=
  match p, s with
  | [], _ => true
  | _ :: _, [] => false
  | a :: p', b :: s' => (a =? b)%N && startsWith p' s'
  end.

(** [s.substring(n)] for a non-negative integer [n]. *)
Definition substring (n : nat) (s : jsstring) : jsstring := drop n s.

(** [s.split(sep)] for a one-unit separator: the pieces between the
    separators, in order; never the empty list. *)
Fixpoint split_aux (sep : N) (cur : jsstring) (s : jsstring)
  : list jsstring :=
  match s with
  | [] => [rev cur]
  | c :: s' =>
      if (c =? sep)%N then rev cur :: split_aux sep [] s'
      else split_aux sep (c :: cur) s'
  end.

Definition split (sep : N) (s : jsstring) : list jsstring :=
  split_aux sep [] s.

(** [xs.join(sep)] for a one-unit separator. *)
Fixpoint join (sep : N) (xs : list jsstring) : jsstring :=
  match xs with
  | [] => []
  | [x] => x
  | x :: rest => x ++ sep :: join sep rest
  end.

(** Truthiness of a string: the empty string is the only falsy one. *)
Definition truthy (s : jsstring) : bool :=
  match s with [] => false | _ :: _ => true end.

End Js.

(* ===================================================================== *)
(** ** The session engine ([App]) *)
(* ===================================================================== *)

Module Session.
Import Js.

(** The union type of [ExamState.status]; [App] writes the first four
    of its members. *)
Inductive Status := idle | loading | active | finished | error.

#[global] Instance Status_eq_dec : EqDecision Status.
Proof. solve_decision. Defined.

(** [interface Question] *)
Record Question := mkQuestion {
  id : jsstring;
  text : jsstring;
  options : list jsstring;
  correctOptionIndex : Z;
  explanation : jsstring
}.

(** [interface ExamState]; its optional [error] property is
    [errorMessage] here, [None] when the property is absent. *)
Record ExamState := mkExamState {
  status : Status;
  questions : list Question;
  currentQuestionIndex : Z;
  answers : gmap Z Z;
  flagged : gmap Z bool;
  startTime : option Z;
  timeRemaining : Z;
  score : Z;
  errorMessage : option jsstring
}.

(** [interface ExamConfig], without its [subject], [level] and
    [language]: [App] hands those to [generateExamQuestions] and reads
    nothing else from them. *)
Record ExamConfig := mkExamConfig {
  questionCount : Z;
  durationMinutes : Z;
  topic : option jsstring
}.

Inductive AppMode := EXAM | CLASSES | PRACTICE.

(** The three pieces of [useState] of [App] that the handlers write. *)
Record App := mkApp {
  mode : AppMode;
  examState : ExamState;
  config : option ExamConfig
}.

Definition initialState : ExamState :=
  {| status := idle;
     questions := [];
     currentQuestionIndex := 0;
     answers := ∅;
     flagged := ∅;
     startTime := None;
     timeRemaining := 0;
     score := 0;
     errorMessage := None |}.

(** *** Scoring *)

(** The body of the [forEach] callback of [calculateScore], threaded
    through the question list with the running index and score.
    [state.answers[idx] === q.correctOptionIndex] is false when the key is
    missing ([undefined] is not a number). *)
Fixpoint forEachScore (ans : gmap Z Z) (qs : list Question)
         (idx : Z) (acc : Z) : Z :=
  match qs with
  | [] => acc
  | q :: rest =>
      forEachScore ans rest (idx + 1)
        (if bool_decide (ans !! idx = Some (correctOptionIndex q))
         then acc + 1 else acc)
  end.

Definition calculateScore (state : ExamState) : Z :=
  forEachScore (answers state) (questions state) 0 0.

(** *** The state updaters of the handlers *)

(** [handleAnswer]: [{...prev, answers: {...prev.answers, [i]: o}}] *)
Definition handleAnswer (questionIndex optionIndex : Z)
           (prev : ExamState) : ExamState :=
  {| status := status prev;
     questions := questions prev;
     currentQuestionIndex := currentQuestionIndex prev;
     answers := <[questionIndex := optionIndex]> (answers prev);
     flagged := flagged prev;
     startTime := startTime prev;
     timeRemaining := timeRemaining prev;
     score := score prev;
     errorMessage := errorMessage prev |}.

(** [!prev.flagged[i]]: a missing key reads [undefined], whose negation
    is [true]. *)
Definition notFlagged (fl : gmap Z bool) (i : Z) : bool :=
  negb (default false (fl !! i)).

(** [handleFlag] *)
Definition handleFlag (questionIndex : Z) (prev : ExamState) : ExamState :=
  {| status := status prev;
     questions := questions prev;
     currentQuestionIndex := currentQuestionIndex prev;
     answers := answers prev;
     flagged := <[questionIndex := notFlagged (flagged prev) questionIndex]>
                  (flagged prev);
     startTime := startTime prev;
     timeRemaining := timeRemaining prev;
     score := score prev;
     errorMessage := errorMessage prev |}.

(** [handleNavigate] *)
Definition handleNavigate (questionIndex : Z) (prev : ExamState)
  : ExamState :=
  {| status := status prev;
     questions := questions prev;
     currentQuestionIndex := questionIndex;
     answers := answers prev;
     flagged := flagged prev;
     startTime := startTime prev;
     timeRemaining := timeRemaining prev;
     score := score prev;
     errorMessage := errorMessage prev |}.

(** [handleSubmit] *)
Definition handleSubmit (prev : ExamState) : ExamState :=
  {| status := finished;
     questions := questions prev;
     currentQuestionIndex := currentQuestionIndex prev;
     answers := answers prev;
     flagged := flagged prev;
     startTime := startTime prev;
     timeRemaining := timeRemaining prev;
     score := calculateScore prev;
     errorMessage := errorMessage prev |}.

(** *** The countdown timer *)

(** The guard of the timer effect: the interval exists only for a render
    in which it holds, and the effect's clean-up clears it whenever
    [status] or [timeRemaining] has changed. *)
Definition timerArmed (s : ExamState) : bool :=
  bool_decide (status s = active) && (0 <? timeRemaining s).

(** The updater the interval callback hands to [setExamState]. *)
Definition timerUpdater (prev : ExamState) : ExamState :=
  if timeRemaining prev <=? 1 then
    {| status := finished;
       questions := questions prev;
       currentQuestionIndex := currentQuestionIndex prev;
       answers := answers prev;
       flagged := flagged prev;
       startTime := startTime prev;
       timeRemaining := 0;
       score := calculateScore prev;
       errorMessage := errorMessage prev |}
  else
    {| status := status prev;
       questions := questions prev;
       currentQuestionIndex := currentQuestionIndex prev;
       answers := answers prev;
       flagged := flagged prev;
       startTime := startTime prev;
       timeRemaining := timeRemaining prev - 1;
       score := score prev;
       errorMessage := errorMessage prev |}.

(** One second passing: the callback runs if the interval is there. *)
Definition tick (s : ExamState) : ExamState :=
  if timerArmed s then timerUpdater s else s.

(** *** Question generation *)

(** First [setExamState] of [startQuizGeneration]. *)
Definition generationStarted (prev : ExamState) : ExamState :=
  {| status := loading;
     questions := questions prev;
     currentQuestionIndex := currentQuestionIndex prev;
     answers := answers prev;
     flagged := flagged prev;
     startTime := startTime prev;
     timeRemaining := timeRemaining prev;
     score := score prev;
     errorMessage := errorMessage prev |}.

(** The state set when [generateExamQuestions] resolves; [now] is the
    value of [Date.now()]. *)
Definition generationSucceeded (qs : list Question) (newConfig : ExamConfig)
           (now : Z) : ExamState :=
  {| status := active;
     questions := qs;
     currentQuestionIndex := currentQuestionIndex initialState;
     answers := answers initialState;
     flagged := flagged initialState;
     startTime := Some now;
     timeRemaining := durationMinutes newConfig * 60;
     score := score initialState;
     errorMessage := errorMessage initialState |}.

Definition generationFailedMessage : jsstring :=
  lit "Failed to generate exam. Please try again.".

(** The updater of the [catch] branch. *)
Definition generationFailed (prev : ExamState) : ExamState :=
  {| status := idle;
     questions := questions prev;
     currentQuestionIndex := currentQuestionIndex prev;
     answers := answers prev;
     flagged := flagged prev;
     startTime := startTime prev;
     timeRemaining := timeRemaining prev;
     score := score prev;
     errorMessage := Some generationFailedMessage |}.

(** [startQuizGeneration] up to its [await]. *)
Definition startQuizGeneration (newConfig : ExamConfig) (targetMode : AppMode)
           (app : App) : App :=
  {| mode := targetMode;
     examState := generationStarted (examState app);
     config := Some newConfig |}.

(** *** Restart and exit *)

Definition handleRestart (app : App) : App :=
  {| mode := match mode app with PRACTICE => CLASSES | m => m end;
     examState := initialState;
     config := None |}.

(** [handleExitPractice]; [confirmed] is the answer to
    [window.confirm]. *)
Definition handleExitPractice (confirmed : bool) (app : App) : App :=
  if confirmed then
    {| mode := CLASSES; examState := initialState; config := None |}
  else app.

(** *** Events on the exam state *)

Inductive Event :=
| EvStart
| EvGenerated (qs : list Question) (cfg : ExamConfig) (now : Z)
| EvFailed
| EvTick
| EvAnswer (questionIndex optionIndex : Z)
| EvFlag (questionIndex : Z)
| EvNavigate (questionIndex : Z)
| EvSubmit
| EvRestart.

Definition step (s : ExamState) (e : Event) : ExamState :=
  match e with
  | EvStart => generationStarted s
  | EvGenerated qs cfg now => generationSucceeded qs cfg now
  | EvFailed => generationFailed s
  | EvTick => tick s
  | EvAnswer i o => handleAnswer i o s
  | EvFlag i => handleFlag i s
  | EvNavigate i => handleNavigate i s
  | EvSubmit => handleSubmit s
  | EvRestart => initialState
  end.

Definition run (evs : list Event) (s : ExamState) : ExamState :=
  fold_left step evs s.

(** A configuration's duration is a number of minutes, not negative
    (the callers pass [Math.ceil(questionCount * 1.5)] and [5]). *)
Definition wfEvent (e : Event) : Prop :=
  match e with
  | EvGenerated _ cfg _ => 0 <= durationMinutes cfg
  | _ => True
  end.

(** *** What the views can invoke *)

Inductive Screen :=
| PracticeLoadingView | PracticeQuizScreen | ResultsScreen | NoView
| ClassesScreen | SetupScreen | ExamScreen.

(** [renderContent]: the component chosen for a mode and status. *)
Definition renderContent (app : App) : Screen :=
  match mode app with
  | PRACTICE =>
      match status (examState app) with
      | loading => PracticeLoadingView
      | active => PracticeQuizScreen
      | finished =>
          match config app with Some _ => ResultsScreen | None => NoView end
      | _ => NoView
      end
  | CLASSES => ClassesScreen
  | EXAM =>
      match status (examState app) with
      | idle | loading => SetupScreen
      | active => ExamScreen
      | _ =>
          match config app with Some _ => ResultsScreen | None => NoView end
      end
  end.

Inductive Handler :=
| onAnswer | onFlag | onNavigate | onSubmit | onExit | onRestart
| onStartExam | onStartQuiz.

#[global] Instance Handler_eq_dec : EqDecision Handler.
Proof. solve_decision. Defined.

(** The handler props [renderContent] passes to each component. *)
Definition handlersOf (v : Screen) : list Handler :=
  match v with
  | PracticeQuizScreen => [onAnswer; onNavigate; onSubmit; onExit]
  | ExamScreen => [onAnswer; onFlag; onNavigate; onSubmit]
  | ResultsScreen => [onRestart]
  | ClassesScreen => [onStartQuiz]
  | SetupScreen => [onStartExam]
  | PracticeLoadingView | NoView => []
  end.

(** [isLastQuestion] of [ExamScreen] and [PracticeQuizScreen]. *)
Definition isLastQuestion (state : ExamState) : bool :=
  currentQuestionIndex state =? Z.of_nat (length (questions state)) - 1.

(** The arguments with which the two buttons below the question call
    [onNavigate]: Previous is disabled on the first question, Next is
    replaced by the Finish button on the last one. *)
Definition footerNavigations (state : ExamState) : list Z :=
  (if currentQuestionIndex state =? 0 then []
   else [currentQuestionIndex state - 1])
  ++ (if isLastQuestion state then []
      else [currentQuestionIndex state + 1]).

(** The question palette of [ExamScreen]: one button per question. *)
Definition paletteNavigations (state : ExamState) : list Z :=
  map Z.of_nat (seq 0 (length (questions state))).

(** Every index a view can pass to [onNavigate]. *)
Definition navigationsOf (v : Screen) (state : ExamState) : list Z :=
  match v with
  | ExamScreen => footerNavigations state ++ paletteNavigations state
  | PracticeQuizScreen => footerNavigations state
  | _ => []
  end.

(** *** Two states the statements name *)

(** [{...s, timeRemaining: t}] *)
Definition withTimeRemaining (t : Z) (s : ExamState) : ExamState :=
  {| status := status s;
     questions := questions s;
     currentQuestionIndex := currentQuestionIndex s;
     answers := answers s;
     flagged := flagged s;
     startTime := startTime s;
     timeRemaining := t;
     score := score s;
     errorMessage := errorMessage s |}.

(** [{...initialState, error: "Failed to generate exam. ..."}] *)
Definition initialWithError : ExamState :=
  {| status := idle;
     questions := [];
     currentQuestionIndex := 0;
     answers := ∅;
     flagged := ∅;
     startTime := None;
     timeRemaining := 0;
     score := 0;
     errorMessage := Some generationFailedMessage |}.

(** *** The spec's frozen data *)

(** [questions], [answers], [flagged] and [score] are the same in both
    states. *)
Definition frozen (s s' : ExamState) : Prop :=
  questions s' = questions s /\ answers s' = answers s /\
  flagged s' = flagged s /\ score s' = score s.

(** An index into the question list. *)
Definition inRange (state : ExamState) (i : Z) : Prop :=
  0 <= i < Z.of_nat (length (questions state)).

(** *** The reading of the spec's scoring rule *)

(** Question [i] exists and its recorded answer is its correct option. *)
Definition answeredCorrectly (state : ExamState) (i : nat) : bool :=
  match questions state !! i with
  | Some q =>
      bool_decide (answers state !! Z.of_nat i = Some (correctOptionIndex q))
  | None => false
  end.

(** The indices of [[0, len(questions))] that count. *)
Definition correctIndices (state : ExamState) : list nat :=
  List.filter (answeredCorrectly state) (seq 0 (length (questions state))).

End Session.

(* ===================================================================== *)
(** ** The percentage of the results view ([ResultsScreen]) *)
(* ===================================================================== *)

Module Results.
Import Session.

(** An integer as a JavaScript number (exact below [2^53]). *)
Definition number (z : Z) : float :=
  if z <? 0 then PrimFloat.opp (PrimFloat.of_uint63 (Uint63.of_Z (- z)))
  else PrimFloat.of_uint63 (Uint63.of_Z z).

(** What [Math.round] returns: an integer, an infinity or [NaN]. *)
Inductive Rounded :=
| RNaN
| RInfinity (negative : bool)
| RInteger (z : Z).

(** [Math.round(x)]: the integer nearest to [x], a tie going towards
    plus infinity, that is the floor of [x + 1/2] computed exactly.  A
    finite float is [m * 2^e] with a sign. *)
Definition MathRound (x : float) : Rounded :=
  match Prim2SF x with
  | S754_nan => RNaN
  | S754_infinity s => RInfinity s
  | S754_zero _ => RInteger 0
  | S754_finite s m e =>
      let n := if s then Z.neg m else Z.pos m in
      if 0 <=? e then RInteger (n * 2 ^ e)
      else RInteger ((2 * n + 2 ^ (- e)) / 2 ^ (- e + 1))
  end.

(** [Math.round((correctCount / totalQuestions) * 100)] on two
    JavaScript numbers. *)
Definition percentageOf (correctCount totalQuestions : float) : Rounded :=
  MathRound (PrimFloat.mul (PrimFloat.div correctCount totalQuestions)
                           (number 100)).

(** [percentage] of [ResultsScreen]: [totalQuestions] is
    [state.questions.length] and [correctCount] is [state.score]. *)
Definition percentage (state : ExamState) : Rounded :=
  percentageOf (number (score state))
               (number (Z.of_nat (length (questions state)))).

(** [percentageOf] gives [0] for a score of zero out of [n] questions. *)
Definition zeroOutOf (n : nat) : bool :=
  match percentageOf (number 0) (number (Z.of_nat n)) with
  | RInteger 0 => true
  | _ => false
  end.

End Results.

(* ===================================================================== *)
(** ** The lesson-section parser ([ClassesScreen]) *)
(* ===================================================================== *)

Module Lesson.
Import Js.

Record LessonSection := mkSection {
  title : jsstring;
  content : jsstring
}.

(** The three variables the loop of [parseMarkdownToSections] writes. *)
Record ParserState := mkParser {
  sections : list LessonSection;
  currentTitle : jsstring;
  currentContent : list jsstring
}.

Definition headerMarker : jsstring := lit "## ".

(** [pushSection] *)
Definition pushSection (p : ParserState) : ParserState :=
  if truthy (currentTitle p) then
    {| sections :=
         sections p ++
           [ {| title := currentTitle p;
                content := trim (join LF (currentContent p)) |} ];
       currentTitle := currentTitle p;
       currentContent := currentContent p |}
  else p.

(** The test of the loop body: [line.trim().startsWith('## ')]. *)
Definition isHeader (line : jsstring) : bool :=
  startsWith headerMarker (trim line).

(** The body of [for (const line of lines)]. *)
Definition processLine (p : ParserState) (line : jsstring) : ParserState :=
  if isHeader line then
    let p' := pushSection p in
    {| sections := sections p';
       currentTitle := trim (substring 3 (trim line));
       currentContent := [] |}
  else if truthy (currentTitle p) then
    {| sections := sections p;
       currentTitle := currentTitle p;
       currentContent := currentContent p ++ [line] |}
  else p.

Definition emptyParser : ParserState :=
  {| sections := []; currentTitle := []; currentContent := [] |}.

(** The loop and the final [pushSection], over the lines. *)
Definition parseLines (lines : list jsstring) : list LessonSection :=
  sections (pushSection (fold_left processLine lines emptyParser)).

Definition parseMarkdownToSections (markdown : jsstring)
  : list LessonSection :=
  parseLines (split LF markdown).

(** The claim's wording of the header test: the trimmed line begins
    with the marker and its space. *)
Definition beginsWithMarker (line : jsstring) : Prop :=
  exists rest, trim line = lit "## " ++ rest.

(** The section a header line opens, once its body is known. *)
Definition sectionOf (header : jsstring) (body : list jsstring)
  : LessonSection :=
  {| title := trim (substring 3 (trim header));
     content := trim (join LF body) |}.

(** A line the loop does not take for a header. *)
Definition notHeader (line : jsstring) : Prop := isHeader line = false.

(** The parser state with [pre] already emitted before its sections. *)
Definition emittedBefore (pre : list LessonSection) (p : ParserState)
  : ParserState :=
  {| sections := pre ++ sections p;
     currentTitle := currentTitle p;
     currentContent := currentContent p |}.

End Lesson.

(* ===================================================================== *)
(** ** Sample sessions *)
(* ===================================================================== *)

Module Samples.
Import Js Session.

Definition question (correct : Z) : Question :=
  {| id := lit "q";
     text := lit "Which one?";
     options := [lit "a"; lit "b"; lit "c"; lit "d"];
     correctOptionIndex := correct;
     explanation := lit "Because." |}.

(** The configuration [handleTakeQuiz] builds, without its topic. *)
Definition practiceConfig : ExamConfig :=
  {| questionCount := 5; durationMinutes := 5; topic := None |}.

(** A session of two questions, just generated. *)
Definition twoQuestions : ExamState :=
  generationSucceeded [question 1; question 2] practiceConfig 0.

(** The first question answered with its correct option and flagged,
    the second left unanswered. *)
Definition answeredFirst : ExamState :=
  run [EvGenerated [question 1; question 2] practiceConfig 0;
       EvAnswer 0 1; EvFlag 0] initialState.

(** ... and submitted. *)
Definition finishedExam : ExamState := handleSubmit answeredFirst.

(** A finished session with no question: what [EvGenerated [] ..]
    followed by a submit or a timeout leaves. *)
Definition finishedEmpty : ExamState :=
  handleSubmit (generationSucceeded [] practiceConfig 0).

End Samples.

(* ===================================================================== *)
(** ** Numbers as text *)
(* ===================================================================== *)

Module JsNumber.
Import Js.

(** The decimal digits of a natural number, most significant first;
    [fuel] bounds the number of digits. *)
Fixpoint digitsOf (fuel : nat) (n : N) (acc : jsstring) : jsstring :=
  match fuel with
  | O => acc
  | S fuel' =>
      let acc' := (48 + n mod 10)%N :: acc in
      if (n / 10 =? 0)%N then acc' else digitsOf fuel' (n / 10)%N acc'
  end.

(** [n.toString()] for an integer [n] below [1e21] in absolute value,
    where JavaScript writes all the digits (from [1e21] on it switches to
    exponent notation); a number has no more decimal digits than binary
    ones. *)
Definition numberToString (z : Z) : jsstring :=
  let n := Z.to_N (Z.abs z) in
  let digits := digitsOf (S (N.size_nat n)) n [] in
  if z <? 0 then 45%N :: digits else digits.

(** [s.padStart(targetLength, fill)] for a one-unit [fill]. *)
Definition padStart (targetLength : nat) (fill : N) (s : jsstring)
  : jsstring :=
  repeat fill (targetLength - length s) ++ s.

(** The value of a decimal digit, if the unit is one. *)
Definition digitValue (c : N) : option Z :=
  if ((48 <=? c) && (c <=? 57))%N then Some (Z.of_N c - 48) else None.

End JsNumber.

(* ===================================================================== *)
(** ** The exam and practice views ([ExamScreen], [PracticeQuizScreen]) *)
(* ===================================================================== *)

Module ExamView.
Import Js JsNumber Session.

(** [formatTime]: [Math.floor(seconds / 60)] and [seconds % 60], each
    padded to two digits, with a colon between.  [%] takes the sign of
    the dividend. *)
Definition formatTime (seconds : Z) : jsstring :=
  let m := seconds / 60 in
  let s := Z.rem seconds 60 in
  padStart 2 48%N (numberToString m) ++ 58%N :: padStart 2 48%N (numberToString s).

(** [state.questions[state.currentQuestionIndex]], [undefined] when the
    index is not one of the list. *)
Definition currentQuestion (state : ExamState) : option Question :=
  if currentQuestionIndex state <? 0 then None
  else questions state !! Z.to_nat (currentQuestionIndex state).

(** [Object.keys(state.answers).length] *)
Definition answeredCount (state : ExamState) : Z :=
  Z.of_nat (size (answers state)).

(** [unanswered] of the views' [handleSubmit]. *)
Definition unanswered (state : ExamState) : Z :=
  Z.of_nat (length (questions state)) - answeredCount state.

(** [allAnswered] *)
Definition allAnswered (state : ExamState) : bool :=
  answeredCount state =? Z.of_nat (length (questions state)).

(** [handleSubmit] of the views: submit at once when nothing is
    unanswered, otherwise only if [window.confirm] returns true. *)
Definition viewHandleSubmit (confirmed : bool) (state : ExamState)
  : ExamState :=
  if unanswered state =? 0 then handleSubmit state
  else if confirmed then handleSubmit state
  else state.

(** What a user can press in the two views: an option of the current
    question, the flag, Previous and Next, a button of the palette, the
    Submit Exam button of the exam view's header, the Finish button that
    replaces Next on the last question, the practice view's exit; the two
    submit buttons and the exit come with the answer to
    [window.confirm]. *)
Inductive Click :=
| ClickOption (idx : nat)
| ClickFlag
| ClickPrevious
| ClickNext
| ClickPalette (idx : nat)
| ClickSubmitExam (confirmed : bool)
| ClickFinish (confirmed : bool)
| ClickExit (confirmed : bool).

(** The exam state after a click on view [v], [None] when [v] is not the
    view rendered for the state ([renderContent] shows the two views for an
    active state only), when the view cannot render (it reads
    [currentQuestion.text]), or when the button is absent or disabled. *)
Definition click (v : Screen) (state : ExamState) (c : Click)
  : option ExamState :=
  if negb (bool_decide (status state = active)) then None else
  match currentQuestion state with
  | None => None
  | Some q =>
      match v, c with
      | (ExamScreen | PracticeQuizScreen), ClickOption idx =>
          if (idx <? length (options q))%nat
          then Some (handleAnswer (currentQuestionIndex state) (Z.of_nat idx) state)
          else None
      | ExamScreen, ClickFlag =>
          Some (handleFlag (currentQuestionIndex state) state)
      | (ExamScreen | PracticeQuizScreen), ClickPrevious =>
          if currentQuestionIndex state =? 0 then None
          else Some (handleNavigate (currentQuestionIndex state - 1) state)
      | (ExamScreen | PracticeQuizScreen), ClickNext =>
          if isLastQuestion state then None
          else Some (handleNavigate (currentQuestionIndex state + 1) state)
      | ExamScreen, ClickPalette idx =>
          if (idx <? length (questions state))%nat
          then Some (handleNavigate (Z.of_nat idx) state)
          else None
      | ExamScreen, ClickSubmitExam confirmed =>
          Some (viewHandleSubmit confirmed state)
      | (ExamScreen | PracticeQuizScreen), ClickFinish confirmed =>
          if isLastQuestion state then Some (viewHandleSubmit confirmed state)
          else None
      | PracticeQuizScreen, ClickExit confirmed =>
          Some (if confirmed then initialState else state)
      | _, _ => None
      end
  end.

(** What happens to a session on screen: a click, or a second passing. *)
Inductive UiEvent := Press (c : Click) | Second.

Definition uiStep (v : Screen) (state : ExamState) (e : UiEvent)
  : option ExamState :=
  match e with
  | Press c => click v state c
  | Second => Some (tick state)
  end.

Fixpoint uiRun (v : Screen) (state : ExamState) (evs : list UiEvent)
  : option ExamState :=
  match evs with
  | [] => Some state
  | e :: rest =>
      match uiStep v state e with
      | Some state' => uiRun v state' rest
      | None => None
      end
  end.

(** The recorded answers and flags belong to questions of the list, the
    current index too, and each answer is one of its question's
    options. *)
Definition wellFormed (state : ExamState) : Prop :=
  inRange state (currentQuestionIndex state)
  /\ (forall k, is_Some (answers state !! k) -> inRange state k)
  /\ (forall k, is_Some (flagged state !! k) -> inRange state k)
  /\ (forall k o, answers state !! k = Some o ->
        exists q, questions state !! Z.to_nat k = Some q
                  /\ 0 <= o < Z.of_nat (length (options q))).

(** Every recorded answer is at an index of the question list. *)
Definition answersInRange (state : ExamState) : Prop :=
  forall k, is_Some (answers state !! k) -> inRange state k.

(** The two decimal digits of a number below a hundred. *)
Definition twoDigitsOf (n : Z) : jsstring :=
  [Z.to_N (48 + n / 10); Z.to_N (48 + n mod 10)].

End ExamView.

(* ===================================================================== *)
(** ** The application around the exam state ([App]) *)
(* ===================================================================== *)

Module AppFlow.
Import Js Session.

(** A [setExamState] with an updater, the rest of [App] as it is. *)
Definition withExamState (f : ExamState -> ExamState) (app : App) : App :=
  {| mode := mode app; examState := f (examState app); config := config app |}.

(** [setMode], from the two buttons of the navigation bar. *)
Definition setMode (m : AppMode) (app : App) : App :=
  {| mode := m; examState := examState app; config := config app |}.

(** The navigation bar is rendered unless the mode is practice. *)
Definition navigationVisible (app : App) : bool :=
  match mode app with PRACTICE => false | _ => true end.

(** [startQuizGeneration] when [generateExamQuestions] rejects. *)
Definition generationRejected (newConfig : ExamConfig) (targetMode : AppMode)
           (app : App) : App :=
  withExamState generationFailed (startQuizGeneration newConfig targetMode app).

(** [startQuizGeneration] when [generateExamQuestions] resolves. *)
Definition generationResolved (newConfig : ExamConfig) (targetMode : AppMode)
           (qs : list Question) (now : Z) (app : App) : App :=
  withExamState (fun _ => generationSucceeded qs newConfig now)
                (startQuizGeneration newConfig targetMode app).

(** The handlers that write to a running session. *)
Definition writesSession (h : Handler) : bool :=
  match h with
  | onAnswer | onFlag | onNavigate | onSubmit | onExit => true
  | _ => false
  end.

End AppFlow.

(* ===================================================================== *)
(** ** The results view beyond the percentage ([ResultsScreen]) *)
(* ===================================================================== *)

Module ResultsView.
Import Js Session Results.

(** [isPass]: [percentage >= 50], false for [NaN]. *)
Definition isPass (state : ExamState) : bool :=
  match percentage state with
  | RInteger p => 50 <=? p
  | RInfinity negative => negb negative
  | RNaN => false
  end.

(** The badge of a question in the detailed review: [isCorrect] first,
    then [isSkipped], otherwise wrong. *)
Inductive ReviewMark := MarkCorrect | MarkSkipped | MarkWrong.

Definition reviewMark (state : ExamState) (index : nat) (question : Question)
  : ReviewMark :=
  match answers state !! Z.of_nat index with
  | None => MarkSkipped
  | Some userAnswerIndex =>
      if bool_decide (userAnswerIndex = correctOptionIndex question)
      then MarkCorrect else MarkWrong
  end.

(** [state.questions.map((question, index) => ...)] *)
Definition reviewMarks (state : ExamState) : list ReviewMark :=
  imap (reviewMark state) (questions state).

Definition isMark (m m' : ReviewMark) : bool :=
  match m, m' with
  | MarkCorrect, MarkCorrect | MarkSkipped, MarkSkipped
  | MarkWrong, MarkWrong => true
  | _, _ => false
  end.

(** How many questions carry the badge [m]. *)
Definition countMarks (m : ReviewMark) (state : ExamState) : Z :=
  Z.of_nat (length (List.filter (isMark m) (reviewMarks state))).

(** For [correct] right answers out of [total], the percentage is an
    integer from 0 to 100, within half a point of the exact ratio, and it
    reaches 50 exactly when half of the answers are right. *)
Definition percentageChecked (total correct : nat) : bool :=
  match percentageOf (number (Z.of_nat correct)) (number (Z.of_nat total)) with
  | RInteger p =>
      (0 <=? p) && (p <=? 100)
      && (Z.abs (2 * (p * Z.of_nat total - 100 * Z.of_nat correct))
          <=? Z.of_nat total)
      && Bool.eqb (50 <=? p) (Z.of_nat total <=? 2 * Z.of_nat correct)
  | _ => false
  end.

End ResultsView.

(* ===================================================================== *)
(** ** Lessons, bookmarks and notes ([ClassesScreen]) *)
(* ===================================================================== *)

Module Classes.
Import Js.

(** [interface Lesson]; the name [Lesson] is the parser's module
    here. *)
Record LessonDoc := mkLesson {
  topic : jsstring;
  subject : jsstring;
  level : jsstring;
  sections : list Lesson.LessonSection
}.

(** The [lesson] state and the [streamBufferRef] of a running class. *)
Record StreamState := mkStream {
  lesson : option LessonDoc;
  streamBuffer : jsstring
}.

(** [handleStartClass] up to its loop: nothing happens for a topic that
    trims to the empty string. *)
Definition startClass (topic subject level : jsstring) : option StreamState :=
  if truthy (trim topic) then
    Some {| lesson := Some {| topic := topic; subject := subject;
                              level := level; sections := [] |};
            streamBuffer := [] |}
  else None.

(** One turn of [for await (const chunk of stream)]; [chunk.text] may be
    [undefined], and an empty chunk is skipped like it. *)
Definition receiveChunk (st : StreamState) (chunk : option jsstring)
  : StreamState :=
  match chunk with
  | Some (c :: rest) =>
      let buffer := streamBuffer st ++ c :: rest in
      {| lesson :=
           match lesson st with
           | Some prev =>
               Some {| topic := topic prev; subject := subject prev;
                       level := level prev;
                       sections := Lesson.parseMarkdownToSections buffer |}
           | None => None
           end;
         streamBuffer := buffer |}
  | _ => st
  end.

(** The loop over the chunks that arrive before the stream ends or
    fails. *)
Definition receiveChunks (chunks : list (option jsstring)) (st : StreamState)
  : StreamState :=
  fold_left receiveChunk chunks st.

(** The text of the chunks, in order. *)
Definition textOf (chunks : list (option jsstring)) : jsstring :=
  concat (map (default []) chunks).

(** [l.topic === lesson.topic && l.subject === lesson.subject] *)
Definition sameLesson (l lesson : LessonDoc) : bool :=
  bool_decide (topic l = topic lesson)
  && bool_decide (subject l = subject lesson).

(** [isBookmarked] *)
Definition isBookmarked (lesson : option LessonDoc)
           (savedLessons : list LessonDoc) : bool :=
  match lesson with
  | Some lesson => existsb (fun l => sameLesson l lesson) savedLessons
  | None => false
  end.

(** [toggleBookmark]: the list handed to [saveLessonsToStorage]. *)
Definition toggleBookmark (lesson : option LessonDoc)
           (savedLessons : list LessonDoc) : list LessonDoc :=
  match lesson with
  | None => savedLessons
  | Some lesson =>
      if isBookmarked (Some lesson) savedLessons
      then List.filter (fun l => negb (sameLesson l lesson)) savedLessons
      else lesson :: savedLessons
  end.

(** [deleteBookmark]: [splice(index, 1)] on a copy, if confirmed. *)
Definition deleteBookmark (confirmed : bool) (index : nat)
           (savedLessons : list LessonDoc) : list LessonDoc :=
  if confirmed then delete index savedLessons else savedLessons.

(** What identifies a saved lesson. *)
Definition lessonKey (l : LessonDoc) : jsstring * jsstring :=
  (topic l, subject l).

End Classes.

Module Notes.
Import Js JsNumber.

Record Note := mkNote {
  id : jsstring;
  title : jsstring;
  content : jsstring;
  lastModified : Z
}.

(** [Partial<Note>]: the properties an update carries. *)
Record NoteUpdates := mkUpdates {
  newId : option jsstring;
  newTitle : option jsstring;
  newContent : option jsstring;
  newLastModified : option Z
}.

(** The [notes] and [activeNoteId] states. *)
Record NotesState := mkNotes {
  notes : list Note;
  activeNoteId : option jsstring
}.

(** [handleCreateNote]; [now] and [later] are the two readings of
    [Date.now()]. *)
Definition handleCreateNote (now later : Z) (st : NotesState) : NotesState :=
  let newNote := {| id := numberToString now; title := []; content := [];
                    lastModified := later |} in
  {| notes := newNote :: notes st; activeNoteId := Some (id newNote) |}.

(** [{ ...n, ...updates, lastModified: Date.now() }] *)
Definition updated (n : Note) (updates : NoteUpdates) (now : Z) : Note :=
  {| id := default (id n) (newId updates);
     title := default (title n) (newTitle updates);
     content := default (content n) (newContent updates);
     lastModified := now |}.

(** [handleUpdateNote] *)
Definition handleUpdateNote (noteId : jsstring) (updates : NoteUpdates)
           (now : Z) (st : NotesState) : NotesState :=
  {| notes := map (fun n => if bool_decide (id n = noteId)
                            then updated n updates now else n) (notes st);
     activeNoteId := activeNoteId st |}.

(** [handleDeleteNote] *)
Definition handleDeleteNote (confirmed : bool) (noteId : jsstring)
           (st : NotesState) : NotesState :=
  if confirmed then
    {| notes := List.filter (fun n => negb (bool_decide (id n = noteId)))
                            (notes st);
       activeNoteId := if bool_decide (activeNoteId st = Some noteId)
                       then None else activeNoteId st |}
  else st.

(** [getActiveNote]: the first note whose id is the active one. *)
Definition getActiveNote (st : NotesState) : option Note :=
  List.find (fun n => bool_decide (Some (id n) = activeNoteId st)) (notes st).

(** The updates of the note editor: a title or a content. *)
Definition keepsId (updates : NoteUpdates) : Prop := newId updates = None.

End Notes.

(* ===================================================================== *)
(** ** Where sessions are configured ([SetupScreen], [handleTakeQuiz]) *)
(* ===================================================================== *)

Module Setup.
Import Js Session Results.

(** [Math.ceil(x)]: the least integer not below [x], computed exactly. *)
Definition MathCeil (x : float) : Rounded :=
  match Prim2SF x with
  | S754_nan => RNaN
  | S754_infinity s => RInfinity s
  | S754_zero _ => RInteger 0
  | S754_finite s m e =>
      let n := if s then Z.neg m else Z.pos m in
      if 0 <=? e then RInteger (n * 2 ^ e)
      else RInteger (- ((- n) / 2 ^ (- e)))
  end.

(** [handleStart] of [SetupScreen]: the configuration passed to
    [onStartExam], with [durationMinutes = Math.ceil(questionCount * 1.5)];
    [None] stands for a duration that is not an integer. *)
Definition handleStart (questionCount : Z) : option ExamConfig :=
  match MathCeil (PrimFloat.mul (number questionCount) 1.5%float) with
  | RInteger durationMinutes =>
      Some {| questionCount := questionCount;
              durationMinutes := durationMinutes;
              topic := None |}
  | _ => None
  end.

(** [handleTakeQuiz] of [ClassesScreen]: nothing without a lesson,
    otherwise five questions in five minutes on the lesson's topic. *)
Definition handleTakeQuiz (lesson : option Classes.LessonDoc)
  : option ExamConfig :=
  match lesson with
  | None => None
  | Some lesson =>
      Some {| questionCount := 5; durationMinutes := 5;
              topic := Some (Classes.topic lesson) |}
  end.

(** [handleStart] gives [questionCount] one and a half minutes each,
    rounded up. *)
Definition durationChecked (questionCount : nat) : bool :=
  match handleStart (Z.of_nat questionCount) with
  | Some cfg =>
      (Session.questionCount cfg =? Z.of_nat questionCount)
      && (durationMinutes cfg =? (3 * Z.of_nat questionCount + 1) / 2)
  | None => false
  end.

End Setup.

(* ===================================================================== *)
(** ** Facts about the string operations *)
(* ===================================================================== *)

Section JsFacts.
Import Js.

Lemma startsWith_prefix (p s : jsstring) :
  startsWith p s = true <-> exists rest, s = p ++ rest.
Proof.
  revert s; induction p as [|a p IH]; intros s; simpl.
  - split; [intros _; now exists s | reflexivity].
  - destruct s as [|b s].
    + split; [discriminate | intros [rest H]; discriminate].
    + rewrite andb_true_iff, N.eqb_eq, IH. split.
      * intros [-> [rest ->]]. now exists rest.
      * intros [rest H]. injection H as -> ->. split; [reflexivity | now exists rest].
Qed.

Lemma split_aux_app (sep : N) (a b cur : jsstring) :
  split_aux sep cur (a ++ sep :: b) = split_aux sep cur a ++ split_aux sep [] b.
Proof.
  revert cur; induction a as [|c a IH]; intros cur; simpl.
  - now rewrite N.eqb_refl.
  - destruct (c =? sep)%N; simpl; now rewrite IH.
Qed.

(** Splitting at a separator splits the list of pieces. *)
Lemma split_app (sep : N) (a b : jsstring) :
  split sep (a ++ sep :: b) = split sep a ++ split sep b.
Proof. apply split_aux_app. Qed.

Lemma trimStart_nil_iff (s : jsstring) :
  trimStart s = [] <-> forallb isWhiteSpace s = true.
Proof.
  induction s as [|c s IH]; simpl; [tauto|].
  destruct (isWhiteSpace c); simpl; [exact IH | split; discriminate].
Qed.

(** What [trimStart] keeps does not begin with white space. *)
Lemma trimStart_head (s : jsstring) (c : N) (t : jsstring) :
  trimStart s = c :: t -> isWhiteSpace c = false.
Proof.
  induction s as [|d s IH]; simpl; [discriminate|].
  destruct (isWhiteSpace d) eqn:E; [exact IH|].
  intros H; injection H as <- _; exact E.
Qed.

(** What [trimEnd] keeps does not end with white space. *)
Lemma trimEnd_last (s t : jsstring) (c : N) :
  trimEnd s = t ++ [c] -> isWhiteSpace c = false.
Proof.
  unfold trimEnd. intros H.
  apply (f_equal (@rev N)) in H.
  rewrite rev_involutive, rev_app_distr in H. simpl in H.
  exact (trimStart_head _ _ _ H).
Qed.

Lemma forallb_rev_ws (s : jsstring) :
  forallb isWhiteSpace (rev s) = forallb isWhiteSpace s.
Proof.
  induction s as [|c s IH]; simpl; [reflexivity|].
  rewrite forallb_app, IH. simpl. rewrite andb_true_r. apply andb_comm.
Qed.

Lemma trimStart_forallb (s : jsstring) :
  forallb isWhiteSpace (trimStart s) = forallb isWhiteSpace s.
Proof.
  induction s as [|c s IH]; simpl; [reflexivity|].
  destruct (isWhiteSpace c) eqn:E; simpl; [exact IH | now rewrite E].
Qed.

(** [trim] empties exactly the strings made of white space. *)
Lemma trim_nil_iff (s : jsstring) :
  trim s = [] <-> forallb isWhiteSpace s = true.
Proof.
  unfold trim, trimEnd. split.
  - intros H. apply (f_equal (@rev N)) in H. rewrite rev_involutive in H.
    simpl in H. apply trimStart_nil_iff in H.
    now rewrite forallb_rev_ws, trimStart_forallb in H.
  - intros H.
    assert (E : trimStart (rev (trimStart s)) = []).
    { apply trimStart_nil_iff. now rewrite forallb_rev_ws, trimStart_forallb. }
    now rewrite E.
Qed.

(** A string that ends with a unit that is not white space does not
    trim to the empty string. *)
Lemma trim_snoc_truthy (t : jsstring) (c : N) :
  isWhiteSpace c = false -> truthy (trim (t ++ [c])) = true.
Proof.
  intros Hc. destruct (trim (t ++ [c])) eqn:E; [|reflexivity].
  apply trim_nil_iff in E. rewrite forallb_app in E. simpl in E.
  rewrite Hc, andb_false_r in E. discriminate.
Qed.

End JsFacts.

(* ===================================================================== *)
(** ** The lesson-section parser: how the loop moves *)
(* ===================================================================== *)

Section ParserFacts.
Import Js Lesson.

(** The title of a header line is never the empty string: the trimmed
    line cannot end with the space of the marker. *)
Lemma header_title_truthy (line : jsstring) :
  isHeader line = true -> truthy (trim (substring 3 (trim line))) = true.
Proof.
  unfold isHeader. intros H. apply startsWith_prefix in H as [rest Hrest].
  rewrite Hrest. change (substring 3 (headerMarker ++ rest)) with rest.
  destruct (rev rest) as [|c t] eqn:E.
  - apply (f_equal (@rev N)) in E. rewrite rev_involutive in E. simpl in E.
    subst rest. unfold trim in Hrest.
    apply (trimEnd_last _ (lit "##") 32%N) in Hrest. discriminate Hrest.
  - apply (f_equal (@rev N)) in E. rewrite rev_involutive in E. simpl in E.
    subst rest. apply trim_snoc_truthy.
    unfold trim in Hrest. rewrite app_assoc in Hrest.
    exact (trimEnd_last _ _ _ Hrest).
Qed.

Lemma processLine_header (p : ParserState) (line : jsstring) :
  isHeader line = true ->
  processLine p line =
    {| sections := sections (pushSection p);
       currentTitle := trim (substring 3 (trim line));
       currentContent := [] |}.
Proof. unfold processLine. now intros ->. Qed.

Lemma processLine_content (p : ParserState) (line : jsstring) :
  notHeader line -> truthy (currentTitle p) = true ->
  processLine p line =
    {| sections := sections p;
       currentTitle := currentTitle p;
       currentContent := currentContent p ++ [line] |}.
Proof. unfold processLine, notHeader. now intros -> ->. Qed.

Lemma processLine_dropped (p : ParserState) (line : jsstring) :
  notHeader line -> currentTitle p = [] -> processLine p line = p.
Proof. unfold processLine, notHeader. now intros -> ->. Qed.

(** Before the first header the loop does nothing. *)
Lemma loop_before_header (lines : list jsstring) (p : ParserState) :
  Forall notHeader lines -> currentTitle p = [] ->
  fold_left processLine lines p = p.
Proof.
  intros Hall Ht. induction Hall as [|l ls Hl _ IH]; simpl; [reflexivity|].
  rewrite processLine_dropped by assumption. exact IH.
Qed.

(** Inside an open section the loop collects the lines. *)
Lemma loop_in_section (body : list jsstring) (p : ParserState) :
  Forall notHeader body -> truthy (currentTitle p) = true ->
  fold_left processLine body p =
    {| sections := sections p;
       currentTitle := currentTitle p;
       currentContent := currentContent p ++ body |}.
Proof.
  intros Hall. revert p.
  induction Hall as [|l ls Hl _ IH]; intros p Ht; simpl.
  - rewrite app_nil_r. now destruct p.
  - rewrite processLine_content by assumption.
    rewrite IH by exact Ht. simpl. now rewrite <- app_assoc.
Qed.

Lemma pushSection_emittedBefore pre p :
  pushSection (emittedBefore pre p) = emittedBefore pre (pushSection p).
Proof.
  unfold pushSection, emittedBefore. simpl.
  destruct (truthy (currentTitle p)); simpl; [|reflexivity].
  now rewrite app_assoc.
Qed.

Lemma processLine_emittedBefore pre p line :
  processLine (emittedBefore pre p) line
  = emittedBefore pre (processLine p line).
Proof.
  unfold processLine. destruct (isHeader line).
  - rewrite pushSection_emittedBefore. reflexivity.
  - simpl. destruct (truthy (currentTitle p)); reflexivity.
Qed.

(** Sections already emitted stay in front, untouched. *)
Lemma loop_emittedBefore pre lines p :
  fold_left processLine lines (emittedBefore pre p)
  = emittedBefore pre (fold_left processLine lines p).
Proof.
  revert p; induction lines as [|l ls IH]; intros p; simpl; [reflexivity|].
  now rewrite processLine_emittedBefore, IH.
Qed.

Lemma parseLines_skip (pre rest : list jsstring) :
  Forall notHeader pre -> parseLines (pre ++ rest) = parseLines rest.
Proof.
  intros H. unfold parseLines.
  rewrite fold_left_app, (loop_before_header pre) by (assumption || reflexivity).
  reflexivity.
Qed.

(** A header, the lines of its body, and the next header or the end. *)
Lemma parseLines_section (h : jsstring) (body rest : list jsstring) :
  isHeader h = true -> Forall notHeader body ->
  (rest = [] \/ exists h' rest', rest = h' :: rest' /\ isHeader h' = true) ->
  parseLines (h :: body ++ rest) =
    {| title := trim (substring 3 (trim h));
       content := trim (join LF body) |} :: parseLines rest.
Proof.
  intros Hh Hbody Hrest. unfold parseLines.
  pose proof (header_title_truthy _ Hh) as Ht.
  cbn [fold_left]. rewrite fold_left_app, (processLine_header _ _ Hh).
  rewrite (loop_in_section body) by assumption.
  cbn [sections currentTitle currentContent pushSection emptyParser truthy app].
  destruct Hrest as [-> | (h' & rest' & -> & Hh')]; cbn [fold_left].
  - unfold pushSection. cbn [sections currentTitle currentContent].
    rewrite Ht. reflexivity.
  - rewrite !(processLine_header _ _ Hh'). unfold pushSection at 2 4.
    cbn [sections currentTitle currentContent emptyParser truthy app].
    rewrite Ht. cbn [sections app].
    set (sec := {| title := _; content := _ |}).
    change {| sections := [sec];
              currentTitle := trim (substring 3 (trim h'));
              currentContent := [] |}
      with (emittedBefore [sec]
              {| sections := [];
                 currentTitle := trim (substring 3 (trim h'));
                 currentContent := [] |}).
    rewrite loop_emittedBefore, pushSection_emittedBefore. reflexivity.
Qed.

End ParserFacts.

(* ===================================================================== *)
(** ** The lesson-section parser: the properties *)
(* ===================================================================== *)

Section ParserProperties.
Import Js Lesson.

Lemma isHeader_beginsWithMarker (line : jsstring) :
  isHeader line = true <-> beginsWithMarker line.
Proof. apply startsWith_prefix. Qed.

Lemma notHeader_iff (line : jsstring) :
  notHeader line <-> ~ beginsWithMarker line.
Proof.
  unfold notHeader. rewrite <- isHeader_beginsWithMarker.
  destruct (isHeader line); split; congruence.
Qed.

(** C7.  The buffer ["## Intro\nHello\n## Body\nWorld"] parses to the
    two sections Intro/Hello and Body/World.  In general a header line
    followed by the lines of its body, up to the next header line or the
    end of the buffer, yields one section: its title is the trimmed line
    without its first three units, trimmed again, and its content is the
    body lines joined by line feeds and trimmed; the parse continues with
    the next header. *)
Theorem parse_example_and_section_shape :
  parseMarkdownToSections
    (lit "## Intro" ++ LF :: lit "Hello" ++ LF :: lit "## Body" ++ LF :: lit "World")
  = [ {| title := lit "Intro"; content := lit "Hello" |};
      {| title := lit "Body"; content := lit "World" |} ]
  /\ forall (h : jsstring) (body rest : list jsstring),
       isHeader h = true ->
       Forall notHeader body ->
       (rest = [] \/ exists h' rest', rest = h' :: rest' /\ isHeader h' = true) ->
       parseLines (h :: body ++ rest) =
         {| title := trim (substring 3 (trim h));
            content := trim (join LF body) |} :: parseLines rest.
Proof.
  split.
  - vm_compute. reflexivity.
  - intros h body rest. apply parseLines_section.
Qed.

Lemma parse_example_and_section_shape_witness :
  parseLines (lit "  ## Intro " :: [lit "Hello"; lit "there "] ++ [lit "## Body"])
  = {| title := lit "Intro"; content := lit "Hello" ++ LF :: lit "there" |}
      :: parseLines [lit "## Body"].
Proof.
  apply (proj2 parse_example_and_section_shape
           (lit "  ## Intro ") [lit "Hello"; lit "there "] [lit "## Body"]).
  - reflexivity.
  - repeat constructor.
  - right. exists (lit "## Body"), []. split; reflexivity.
Defined.

(** C8.  Lines that precede the first header line leave no trace: a
    buffer whose first lines are not headers parses like the buffer
    without them.  A buffer with no header line at all parses to the
    empty list of sections (a value, not an error). *)
Theorem lines_before_first_header_dropped :
  (forall pre rest : jsstring,
      Forall notHeader (split LF pre) ->
      parseMarkdownToSections (pre ++ LF :: rest)
      = parseMarkdownToSections rest)
  /\ (forall buffer : jsstring,
         Forall notHeader (split LF buffer) ->
         parseMarkdownToSections buffer = []).
Proof.
  split.
  - intros pre rest H. unfold parseMarkdownToSections.
    rewrite split_app. now apply parseLines_skip.
  - intros buffer H. unfold parseMarkdownToSections.
    rewrite <- (app_nil_r (split LF buffer)).
    rewrite parseLines_skip by assumption. reflexivity.
Qed.

Lemma lines_before_first_header_dropped_witness :
  parseMarkdownToSections
    (lit "preface" ++ LF :: lit "##nospace" ++ LF :: lit "## Intro" ++ LF :: lit "Hello")
  = parseMarkdownToSections (lit "## Intro" ++ LF :: lit "Hello")
  /\ parseMarkdownToSections (lit "no header" ++ LF :: lit "# still none") = [].
Proof.
  split.
  - apply (proj1 lines_before_first_header_dropped
             (lit "preface" ++ LF :: lit "##nospace")
             (lit "## Intro" ++ LF :: lit "Hello")).
    repeat constructor.
  - apply (proj2 lines_before_first_header_dropped).
    repeat constructor.
Defined.

End ParserProperties.

(* ===================================================================== *)
(** ** The session engine: scoring *)
(* ===================================================================== *)

Section Scoring.
Import Js Session.

(** The loop of [calculateScore], started at index [n]. *)
Lemma forEachScore_count (ans : gmap Z Z) (qs : list Question) (n : nat) (acc : Z) :
  forEachScore ans qs (Z.of_nat n) acc
  = acc + Z.of_nat (length (List.filter
            (fun i => match qs !! (i - n)%nat with
                      | Some q => bool_decide (ans !! Z.of_nat i = Some (correctOptionIndex q))
                      | None => false
                      end)
            (seq n (length qs)))).
Proof.
  revert n acc. induction qs as [|q rest IH]; intros n acc.
  - simpl. lia.
  - cbn [forEachScore length seq List.filter].
    replace (Z.of_nat n + 1) with (Z.of_nat (S n)) by lia.
    rewrite IH, Nat.sub_diag. cbn [lookup list_lookup].
    rewrite (filter_ext_in
               (fun i => match (q :: rest) !! (i - n)%nat with
                         | Some q0 => bool_decide (ans !! Z.of_nat i = Some (correctOptionIndex q0))
                         | None => false
                         end)
               (fun i => match rest !! (i - S n)%nat with
                         | Some q0 => bool_decide (ans !! Z.of_nat i = Some (correctOptionIndex q0))
                         | None => false
                         end)).
    + destruct (bool_decide _); cbn [length]; lia.
    + intros i Hi. apply in_seq in Hi.
      replace (i - n)%nat with (S (i - S n)) by lia. reflexivity.
Qed.

Lemma calculateScore_correctIndices (st : ExamState) :
  calculateScore st = Z.of_nat (length (correctIndices st)).
Proof.
  unfold calculateScore, correctIndices.
  rewrite (forEachScore_count _ _ 0), Z.add_0_l.
  do 2 f_equal. apply filter_ext. intros i.
  unfold answeredCorrectly. now rewrite Nat.sub_0_r.
Qed.

Lemma In_correctIndices (st : ExamState) (i : nat) :
  In i (correctIndices st) <->
  exists q, questions st !! i = Some q
            /\ answers st !! Z.of_nat i = Some (correctOptionIndex q).
Proof.
  unfold correctIndices, answeredCorrectly.
  rewrite filter_In, in_seq. split.
  - intros [_ H]. destruct (questions st !! i) as [q|]; [|discriminate].
    exists q. split; [reflexivity|]. now apply bool_decide_eq_true in H.
  - intros (q & Hq & Ha). split.
    + apply lookup_lt_Some in Hq. lia.
    + rewrite Hq. now apply bool_decide_eq_true.
Qed.

Lemma calculateScore_bounds (st : ExamState) :
  0 <= calculateScore st <= Z.of_nat (length (questions st)).
Proof.
  rewrite calculateScore_correctIndices. unfold correctIndices.
  pose proof (filter_length_le (answeredCorrectly st)
                (seq 0 (length (questions st)))) as H.
  rewrite length_seq in H. lia.
Qed.

(** C1.  When submit moves the state to finished, the score is the
    number of indices [i] of the question list whose recorded answer
    equals the question's correct option; each such index is counted
    once, and an index with no entry in [answers] is not among them. *)
Theorem submit_scores_matching_answers (st : ExamState) :
  status (handleSubmit st) = finished
  /\ score (handleSubmit st) = Z.of_nat (length (correctIndices st))
  /\ List.NoDup (correctIndices st)
  /\ (forall i : nat,
         In i (correctIndices st) <->
         exists q, questions st !! i = Some q
                   /\ answers st !! Z.of_nat i = Some (correctOptionIndex q))
  /\ (forall i : nat,
         answers st !! Z.of_nat i = None -> ~ In i (correctIndices st)).
Proof.
  split; [reflexivity|]. split; [apply calculateScore_correctIndices|].
  split; [unfold correctIndices; apply List.NoDup_filter, List.seq_NoDup|].
  split; [apply In_correctIndices|].
  intros i Hnone Hin. apply In_correctIndices in Hin as (q & _ & Ha).
  congruence.
Qed.

End Scoring.

Section ScoringWitness.
Import Session Samples.

Lemma submit_scores_matching_answers_witness :
  ~ In 1%nat (correctIndices answeredFirst).
Proof.
  apply (proj2 (proj2 (proj2 (proj2
           (submit_scores_matching_answers answeredFirst)))) 1%nat).
  reflexivity.
Defined.

(** The spec's example: ten questions, the first five answered, three
    of them correctly; submit gives score 3 and status finished. *)
Example submit_ten_questions_three_correct :
  let s := run [EvGenerated (repeat (question 1) 10) practiceConfig 0;
                EvAnswer 0 1; EvAnswer 1 0; EvAnswer 2 1; EvAnswer 3 3;
                EvAnswer 4 1; EvSubmit] initialState in
  score s = 3 /\ status s = finished.
Proof. vm_compute. split; reflexivity. Qed.

End ScoringWitness.

(* ===================================================================== *)
(** ** The session engine: the countdown timer *)
(* ===================================================================== *)

Section Timer.
Import Session.

Lemma tick_inactive (s : ExamState) : status s <> active -> tick s = s.
Proof.
  intros H. unfold tick, timerArmed.
  now rewrite bool_decide_eq_false_2.
Qed.

Lemma tick_armed (s : ExamState) :
  status s = active -> 0 < timeRemaining s -> tick s = timerUpdater s.
Proof.
  intros Ha Ht. unfold tick, timerArmed.
  rewrite bool_decide_eq_true_2 by assumption.
  now rewrite (proj2 (Z.ltb_lt _ _) Ht).
Qed.

Lemma tick_nonneg (s : ExamState) :
  0 <= timeRemaining s -> 0 <= timeRemaining (tick s).
Proof.
  intros H. unfold tick, timerUpdater.
  destruct (timerArmed s); [|assumption].
  destruct (Z.leb_spec (timeRemaining s) 1); simpl; lia.
Qed.

Lemma step_nonneg (s : ExamState) (e : Event) :
  wfEvent e -> 0 <= timeRemaining s -> 0 <= timeRemaining (step s e).
Proof.
  destruct e; simpl; intros Hwf H; try assumption; try lia.
  now apply tick_nonneg.
Qed.

Lemma run_nonneg (evs : list Event) (s : ExamState) :
  Forall wfEvent evs -> 0 <= timeRemaining s ->
  0 <= timeRemaining (run evs s).
Proof.
  intros Hall. revert s. unfold run.
  induction Hall as [|e evs He _ IH]; intros s Hs; simpl; [assumption|].
  apply IH. now apply step_nonneg.
Qed.

Lemma calculateScore_withTimeRemaining (t : Z) (s : ExamState) :
  calculateScore (withTimeRemaining t s) = calculateScore s.
Proof. reflexivity. Qed.

(** [n] seconds on a running timer: a plain countdown before the last
    second, the submitted state with the timer at zero from then on. *)
Lemma ticks_countdown (s : ExamState) (n : nat) :
  status s = active -> 0 < timeRemaining s ->
  (Z.of_nat n < timeRemaining s ->
   Nat.iter n tick s = withTimeRemaining (timeRemaining s - Z.of_nat n) s)
  /\ (timeRemaining s <= Z.of_nat n ->
      Nat.iter n tick s = withTimeRemaining 0 (handleSubmit s)).
Proof.
  intros Ha Ht. induction n as [|n [IHlt IHge]].
  - split; [|lia]. intros _. simpl. rewrite Z.sub_0_r. now destruct s.
  - rewrite Nat.iter_succ. split; intros Hn.
    + rewrite IHlt by lia. rewrite tick_armed by (simpl; (assumption || lia)).
      unfold timerUpdater. cbn [timeRemaining withTimeRemaining].
      destruct (Z.leb_spec (timeRemaining s - Z.of_nat n) 1); [lia|].
      unfold withTimeRemaining. simpl. f_equal. lia.
    + destruct (Z.eq_dec (timeRemaining s) (Z.of_nat (S n))) as [E|E].
      * rewrite IHlt by lia. rewrite tick_armed by (simpl; (assumption || lia)).
        unfold timerUpdater. cbn [timeRemaining withTimeRemaining].
        destruct (Z.leb_spec (timeRemaining s - Z.of_nat n) 1); [|lia].
        reflexivity.
      * rewrite IHge by lia. now apply tick_inactive.
Qed.

(** C2.  The timer is never negative: not in any state reached from the
    initial one by the engine's events, and not after any number of
    seconds from a state where it is not.  On a running timer the second
    that brings it to zero moves the state to finished with the score
    explicit submit would give; before it the state only counts down;
    after it further seconds change nothing.  A second has no effect on
    a state that is not active. *)
Theorem timer_counts_down_and_submits_once :
  (forall evs : list Event,
      Forall wfEvent evs -> 0 <= timeRemaining (run evs initialState))
  /\ (forall (s : ExamState) (n : nat),
         0 <= timeRemaining s -> 0 <= timeRemaining (Nat.iter n tick s))
  /\ (forall s : ExamState,
         status s = active -> 0 < timeRemaining s ->
         timeRemaining (tick s) = 0 ->
         tick s = withTimeRemaining 0 (handleSubmit s)
         /\ status (tick s) = finished
         /\ score (tick s) = calculateScore s)
  /\ (forall (s : ExamState) (n : nat),
         status s = active -> 0 < timeRemaining s ->
         (Z.of_nat n < timeRemaining s ->
          Nat.iter n tick s
          = withTimeRemaining (timeRemaining s - Z.of_nat n) s)
         /\ (timeRemaining s <= Z.of_nat n ->
             Nat.iter n tick s = withTimeRemaining 0 (handleSubmit s)))
  /\ (forall s : ExamState, status s <> active -> tick s = s).
Proof.
  split; [|split; [|split; [|split]]].
  - intros evs H. apply run_nonneg; [assumption | simpl; lia].
  - intros s n H. induction n as [|n IH]; [assumption|].
    rewrite Nat.iter_succ. now apply tick_nonneg.
  - intros s Ha Ht Hz.
    rewrite tick_armed in Hz |- * by assumption.
    unfold timerUpdater in Hz |- *.
    destruct (Z.leb_spec (timeRemaining s) 1); simpl in Hz; [|lia].
    repeat split.
  - apply ticks_countdown.
  - apply tick_inactive.
Qed.

End Timer.

Section TimerWitness.
Import Session Samples.

Lemma timer_counts_down_and_submits_once_witness :
  0 <= timeRemaining (run [EvStart; EvGenerated [question 1] practiceConfig 0;
                           EvTick; EvAnswer 0 1; EvTick] initialState)
  /\ 0 <= timeRemaining (Nat.iter 400 tick twoQuestions)
  /\ tick (withTimeRemaining 1 twoQuestions)
     = withTimeRemaining 0 (handleSubmit (withTimeRemaining 1 twoQuestions))
  /\ Nat.iter 299 tick twoQuestions = withTimeRemaining 1 twoQuestions
  /\ Nat.iter 301 tick twoQuestions = withTimeRemaining 0 (handleSubmit twoQuestions)
  /\ tick finishedExam = finishedExam.
Proof.
  pose proof timer_counts_down_and_submits_once as (Hrun & Hiter & Hzero & Hcount & Hoff).
  split; [|split; [|split; [|split; [|split]]]].
  - apply Hrun. repeat constructor. simpl. lia.
  - apply Hiter. simpl. lia.
  - apply (Hzero (withTimeRemaining 1 twoQuestions)); [reflexivity | reflexivity | reflexivity].
  - apply (proj1 (Hcount twoQuestions 299%nat eq_refl eq_refl)). reflexivity.
  - apply (proj2 (Hcount twoQuestions 301%nat eq_refl eq_refl)). simpl. lia.
  - apply Hoff. discriminate.
Defined.

(** The spec's example: ten minutes seed the timer with 600 seconds, and
    after 600 seconds without a submit the session is finished. *)
Example ten_minutes_then_finished :
  let s := generationSucceeded [question 1]
             {| questionCount := 1; durationMinutes := 10; topic := None |} 0 in
  timeRemaining s = 600
  /\ status (Nat.iter 599 tick s) = active
  /\ status (Nat.iter 600 tick s) = finished.
Proof. vm_compute. repeat split. Qed.

End TimerWitness.

(* ===================================================================== *)
(** ** The session engine: handlers on a finished state, navigation,
     failure and restart *)
(* ===================================================================== *)

Section Handlers.
Import Session Samples.

(** No view rendered for a finished state holds a handler that writes
    answers, flags, the current index or the score. *)
Lemma finished_view_handlers (app : App) (h : Handler) :
  status (examState app) = finished ->
  In h (handlersOf (renderContent app)) ->
  h = onRestart \/ h = onStartQuiz.
Proof.
  unfold renderContent. intros ->.
  destruct (mode app), (config app); simpl; intuition.
Qed.

(** C3, as the spec states it, fails: none of the three handlers looks
    at [status].  On the finished sample session an answer is still
    recorded and a flag still toggled; after such an answer submit
    gives another score. *)
Lemma finished_state_not_frozen_counterexample :
  ~ (forall s : ExamState, status s = finished ->
       (forall i o : Z, frozen s (handleAnswer i o s))
       /\ (forall i : Z, frozen s (handleFlag i s))
       /\ frozen s (handleSubmit s))
  /\ ~ frozen finishedExam (handleAnswer 1 2 finishedExam)
  /\ ~ frozen finishedExam (handleFlag 1 finishedExam)
  /\ ~ frozen (handleAnswer 1 2 finishedExam)
              (handleSubmit (handleAnswer 1 2 finishedExam)).
Proof.
  assert (Ha : ~ frozen finishedExam (handleAnswer 1 2 finishedExam)).
  { intros (_ & H & _). apply (f_equal (fun m : gmap Z Z => m !! 1)) in H.
    vm_compute in H. discriminate H. }
  split; [|split; [exact Ha|split]].
  - intros H. apply Ha. now apply (H finishedExam eq_refl).
  - intros (_ & _ & H & _).
    apply (f_equal (fun m : gmap Z bool => m !! 1)) in H.
    vm_compute in H. discriminate H.
  - intros (_ & _ & _ & H). vm_compute in H. discriminate H.
Qed.

(** C3, amended.  On a finished state the handlers do what they do on
    any state: [handleAnswer] records the answer and [handleFlag]
    toggles the flag, each leaving every other field alone;
    [handleSubmit] leaves questions, answers and flags alone and sets
    the score to the scoring function's value, which is the score
    already held when finished was entered by submit or by the timer.
    What keeps a finished session frozen is the view: the component
    rendered for a finished state receives none of these handlers. *)
Theorem finished_state_handlers (s : ExamState) :
  status s = finished ->
  (forall i o : Z,
      status (handleAnswer i o s) = finished
      /\ questions (handleAnswer i o s) = questions s
      /\ answers (handleAnswer i o s) = <[i := o]> (answers s)
      /\ flagged (handleAnswer i o s) = flagged s
      /\ score (handleAnswer i o s) = score s)
  /\ (forall i : Z,
         status (handleFlag i s) = finished
         /\ questions (handleFlag i s) = questions s
         /\ answers (handleFlag i s) = answers s
         /\ flagged (handleFlag i s)
            = <[i := negb (default false (flagged s !! i))]> (flagged s)
         /\ score (handleFlag i s) = score s)
  /\ (status (handleSubmit s) = finished
      /\ questions (handleSubmit s) = questions s
      /\ answers (handleSubmit s) = answers s
      /\ flagged (handleSubmit s) = flagged s
      /\ score (handleSubmit s) = calculateScore s)
  /\ (score s = calculateScore s -> handleSubmit s = s)
  /\ handleSubmit (handleSubmit s) = handleSubmit s
  /\ (forall (app : App) (h : Handler),
         examState app = s ->
         In h (handlersOf (renderContent app)) ->
         h <> onAnswer /\ h <> onFlag /\ h <> onNavigate /\ h <> onSubmit).
Proof.
  intros Hs. repeat split; try assumption.
  - intros E. unfold handleSubmit. rewrite <- E, <- Hs. now destruct s.
  - intros E; subst h.
    destruct (finished_view_handlers app onAnswer); congruence.
  - intros E; subst h.
    destruct (finished_view_handlers app onFlag); congruence.
  - intros E; subst h.
    destruct (finished_view_handlers app onNavigate); congruence.
  - intros E; subst h.
    destruct (finished_view_handlers app onSubmit); congruence.
Qed.

Lemma finished_state_handlers_witness :
  answers (handleAnswer 1 2 finishedExam) = <[1 := 2]> (answers finishedExam)
  /\ handleSubmit finishedExam = finishedExam.
Proof.
  pose proof (finished_state_handlers finishedExam eq_refl)
    as (Hanswer & _ & _ & Hsame & _).
  split.
  - apply (Hanswer 1 2).
  - apply Hsame. reflexivity.
Defined.

(** C4, as the spec states it, fails: [handleNavigate] stores whatever
    index it is given.  On the two-question sample, index 7 becomes the
    current index. *)
Lemma navigate_out_of_range_counterexample :
  ~ (forall (s : ExamState) (i : Z),
        ~ inRange s i ->
        currentQuestionIndex (handleNavigate i s) = currentQuestionIndex s).
Proof.
  intros H. specialize (H twoQuestions 7).
  assert (Hout : ~ inRange twoQuestions 7) by (unfold inRange; simpl; lia).
  specialize (H Hout). discriminate H.
Qed.

Lemma footerNavigations_inRange (s : ExamState) (i : Z) :
  inRange s (currentQuestionIndex s) ->
  In i (footerNavigations s) -> inRange s i.
Proof.
  unfold inRange, footerNavigations, isLastQuestion. intros Hcur Hin.
  apply in_app_or in Hin as [Hin | Hin].
  - destruct (Z.eqb_spec (currentQuestionIndex s) 0); simpl in Hin;
      [contradiction | destruct Hin as [<- | []]; lia].
  - destruct (Z.eqb_spec (currentQuestionIndex s)
                         (Z.of_nat (length (questions s)) - 1));
      simpl in Hin; [contradiction | destruct Hin as [<- | []]; lia].
Qed.

Lemma paletteNavigations_inRange (s : ExamState) (i : Z) :
  In i (paletteNavigations s) -> inRange s i.
Proof.
  unfold inRange, paletteNavigations. intros Hin.
  apply in_map_iff in Hin as (k & <- & Hk). apply in_seq in Hk. lia.
Qed.

(** C4, amended.  [handleNavigate] makes the given index the current
    one, whatever it is, changes no other field and cannot fail; there
    is no range check in it.  The range is kept by the callers: from a
    state whose current index is in range, every index the exam and
    practice views can pass is in range. *)
Theorem navigate_sets_index_callers_in_range :
  (forall (s : ExamState) (i : Z),
      currentQuestionIndex (handleNavigate i s) = i
      /\ status (handleNavigate i s) = status s
      /\ questions (handleNavigate i s) = questions s
      /\ answers (handleNavigate i s) = answers s
      /\ flagged (handleNavigate i s) = flagged s
      /\ startTime (handleNavigate i s) = startTime s
      /\ timeRemaining (handleNavigate i s) = timeRemaining s
      /\ score (handleNavigate i s) = score s
      /\ errorMessage (handleNavigate i s) = errorMessage s)
  /\ (forall (v : Screen) (s : ExamState) (i : Z),
         inRange s (currentQuestionIndex s) ->
         In i (navigationsOf v s) ->
         inRange (handleNavigate i s) (currentQuestionIndex (handleNavigate i s))).
Proof.
  split; [intros s i; repeat split|].
  intros v s i Hcur Hin. simpl. change (inRange s i).
  destruct v; simpl in Hin; try contradiction.
  - now apply footerNavigations_inRange.
  - apply in_app_or in Hin as [Hin | Hin];
      [now apply footerNavigations_inRange | now apply paletteNavigations_inRange].
Qed.

Lemma navigate_sets_index_callers_in_range_witness :
  inRange (handleNavigate 1 twoQuestions)
          (currentQuestionIndex (handleNavigate 1 twoQuestions)).
Proof.
  apply (proj2 navigate_sets_index_callers_in_range ExamScreen twoQuestions 1).
  - unfold inRange. simpl. lia.
  - simpl. left. reflexivity.
Defined.

(** C5, as the spec states it, fails: the [catch] branch spreads the
    previous state.  A practice quiz requested while the sample
    session holds an answer and a flag, and failing, leaves the
    questions, the answer and the flag in the idle state. *)
Lemma generation_failure_keeps_data_counterexample :
  ~ (forall prev : ExamState,
        status prev = loading ->
        questions (generationFailed prev) = []
        /\ answers (generationFailed prev) = ∅
        /\ flagged (generationFailed prev) = ∅).
Proof.
  intros H.
  destruct (H (run [EvGenerated [question 1; question 2] practiceConfig 0;
                    EvAnswer 0 1; EvFlag 0; EvStart] initialState) eq_refl)
    as (Hq & _).
  discriminate Hq.
Qed.

(** C5, amended.  When generation fails the state becomes idle with
    the error message attached, and every other field keeps the value
    it had before.  The result is the initial state plus the error
    exactly when each of those other fields already held its initial
    value, as it does after a request made from the initial state or a
    retry after an earlier failure.  Nothing of the state survives the
    next successful generation, which builds the active state from the
    initial one. *)
Theorem generation_failure_idle_with_error :
  (forall prev : ExamState,
      status (generationFailed prev) = idle
      /\ errorMessage (generationFailed prev) = Some generationFailedMessage
      /\ questions (generationFailed prev) = questions prev
      /\ currentQuestionIndex (generationFailed prev) = currentQuestionIndex prev
      /\ answers (generationFailed prev) = answers prev
      /\ flagged (generationFailed prev) = flagged prev
      /\ startTime (generationFailed prev) = startTime prev
      /\ timeRemaining (generationFailed prev) = timeRemaining prev
      /\ score (generationFailed prev) = score prev)
  /\ (forall prev : ExamState,
         generationFailed prev = initialWithError
         <-> (questions prev = [] /\ currentQuestionIndex prev = 0
              /\ answers prev = ∅ /\ flagged prev = ∅
              /\ startTime prev = None /\ timeRemaining prev = 0
              /\ score prev = 0))
  /\ run [EvStart; EvFailed] initialState = initialWithError
  /\ run [EvStart; EvFailed] initialWithError = initialWithError
  /\ (forall (prev : ExamState) (qs : list Question) (cfg : ExamConfig) (now : Z),
         run [EvFailed; EvStart; EvGenerated qs cfg now] prev
         = {| status := active;
              questions := qs;
              currentQuestionIndex := 0;
              answers := ∅;
              flagged := ∅;
              startTime := Some now;
              timeRemaining := durationMinutes cfg * 60;
              score := 0;
              errorMessage := None |}).
Proof.
  split; [intros prev; repeat split|]. split; [|repeat split].
  intros [st qs cur ans fl start time sc err].
  unfold generationFailed, initialWithError. simpl. split.
  - intros H. injection H as -> -> -> -> -> -> ->. repeat split.
  - intros (-> & -> & -> & -> & -> & -> & ->). reflexivity.
Qed.

Lemma generation_failure_idle_with_error_witness :
  generationFailed (generationStarted initialWithError) = initialWithError.
Proof.
  apply (proj2 (proj1 (proj2 generation_failure_idle_with_error)
                  (generationStarted initialWithError))).
  repeat split.
Defined.

(** C6.  Whatever the state, restart leaves exactly the initial exam
    state: idle, no questions, no answers, no flags, index, time and
    score zero; restarting again changes nothing. *)
Theorem restart_yields_initial_state (app : App) :
  examState (handleRestart app) = initialState
  /\ status (examState (handleRestart app)) = idle
  /\ questions (examState (handleRestart app)) = []
  /\ answers (examState (handleRestart app)) = ∅
  /\ flagged (examState (handleRestart app)) = ∅
  /\ currentQuestionIndex (examState (handleRestart app)) = 0
  /\ timeRemaining (examState (handleRestart app)) = 0
  /\ score (examState (handleRestart app)) = 0
  /\ startTime (examState (handleRestart app)) = None
  /\ errorMessage (examState (handleRestart app)) = None
  /\ config (handleRestart app) = None
  /\ handleRestart (handleRestart app) = handleRestart app
  /\ step (examState app) EvRestart = initialState.
Proof.
  repeat split. unfold handleRestart. simpl. now destruct (mode app).
Qed.

End Handlers.

(* ===================================================================== *)
(** ** The percentage of the results view *)
(* ===================================================================== *)

Section Percentage.
Import Session Results Samples.

(** Any number divided by zero and multiplied by a hundred rounds to
    [NaN] or to an infinity, never to an integer. *)
Lemma percentageOf_zero_total (x : float) :
  percentageOf x (number 0) = RNaN
  \/ exists negative, percentageOf x (number 0) = RInfinity negative.
Proof.
  unfold percentageOf, MathRound.
  rewrite FloatAxioms.mul_spec, FloatAxioms.div_spec.
  change (Prim2SF (number 0)) with (S754_zero false).
  change (Prim2SF (number 100)) with (S754_finite false 7036874417766400 (-46)).
  destruct (Prim2SF x) as [s | s | | s m e]; simpl.
  - now left.
  - right. now eexists.
  - now left.
  - right. now eexists.
Qed.

Lemma zeroOutOf_upto_50 : forallb zeroOutOf (seq 1 50) = true.
Proof. vm_compute. reflexivity. Qed.

(** C9, as the spec states it, fails: the finished session with no
    question shows [NaN], not [0]. *)
Lemma percentage_zero_questions_counterexample :
  ~ (forall s : ExamState,
        status s = finished -> questions s = [] ->
        percentage s = RInteger 0).
Proof.
  intros H. specialize (H finishedEmpty eq_refl eq_refl).
  vm_compute in H. discriminate H.
Qed.

(** C9, amended.  The results view computes
    [Math.round((score / questions.length) * 100)] with no guard for an
    empty question list.  With no question the percentage is never an
    integer: it is [NaN] when the score is zero, as it is after submit
    or a timeout, and an infinity or [NaN] otherwise.  A score of zero
    shows as [0] when the list has between one and fifty questions. *)
Theorem percentage_has_no_zero_guard :
  (forall s : ExamState,
      questions s = [] ->
      (forall z : Z, percentage s <> RInteger z)
      /\ (score s = 0 -> percentage s = RNaN)
      /\ percentage (handleSubmit s) = RNaN)
  /\ (forall s : ExamState,
         (1 <= length (questions s) <= 50)%nat -> score s = 0 ->
         percentage s = RInteger 0).
Proof.
  split.
  - intros s Hq.
    assert (E : percentage s = percentageOf (number (score s)) (number 0))
      by (unfold percentage; now rewrite Hq).
    split; [|split].
    + intros z. rewrite E.
      destruct (percentageOf_zero_total (number (score s))) as [-> | [b ->]];
        discriminate.
    + intros Hz. rewrite E, Hz. vm_compute. reflexivity.
    + unfold percentage, handleSubmit, calculateScore. simpl. rewrite Hq.
      vm_compute. reflexivity.
  - intros s Hlen Hscore. unfold percentage. rewrite Hscore.
    pose proof zeroOutOf_upto_50 as H.
    rewrite forallb_forall in H.
    assert (Hin : In (length (questions s)) (seq 1 50))
      by (apply in_seq; lia).
    specialize (H _ Hin). unfold zeroOutOf in H.
    destruct (percentageOf (number 0) (number (Z.of_nat (length (questions s)))))
      as [| |[| |]]; try discriminate H.
    reflexivity.
Qed.

Lemma percentage_has_no_zero_guard_witness :
  percentage finishedEmpty = RNaN
  /\ percentage (handleSubmit twoQuestions) = RInteger 0.
Proof.
  split.
  - apply (proj1 (proj2 (proj1 percentage_has_no_zero_guard finishedEmpty eq_refl))).
    reflexivity.
  - apply (proj2 percentage_has_no_zero_guard (handleSubmit twoQuestions)).
    + simpl. lia.
    + reflexivity.
Defined.

End Percentage.

(* ===================================================================== *)
(** ** The session engine: answers, flags and the score *)
(* ===================================================================== *)

Section AnswersAndScore.
Import Session Samples.

(** Recording an answer: the last write at an index wins, the other
    indices keep what they had, and writing the answer already recorded
    changes nothing. *)
Theorem answer_last_write_wins (s : ExamState) (i o o' : Z) :
  answers (handleAnswer i o s) !! i = Some o
  /\ (forall k : Z, k <> i ->
         answers (handleAnswer i o s) !! k = answers s !! k)
  /\ handleAnswer i o' (handleAnswer i o s) = handleAnswer i o' s
  /\ (answers s !! i = Some o -> handleAnswer i o s = s).
Proof.
  repeat split.
  - apply lookup_insert_eq.
  - intros k Hk. simpl. now rewrite lookup_insert_ne.
  - unfold handleAnswer. simpl. now rewrite insert_insert_eq.
  - intros H. unfold handleAnswer. rewrite (insert_id _ _ _ H). now destruct s.
Qed.

Lemma answer_last_write_wins_witness :
  answers (handleAnswer 1 3 answeredFirst) !! 0 = answers answeredFirst !! 0
  /\ handleAnswer 0 1 answeredFirst = answeredFirst.
Proof.
  split.
  - apply (proj1 (proj2 (answer_last_write_wins answeredFirst 1 3 3)) 0). lia.
  - apply (proj2 (proj2 (proj2 (answer_last_write_wins answeredFirst 0 1 1)))).
    reflexivity.
Defined.

Lemma answeredCorrectly_answer_other (s : ExamState) (i o : Z) (k : nat) :
  Z.of_nat k <> i ->
  answeredCorrectly (handleAnswer i o s) k = answeredCorrectly s k.
Proof.
  intros H. unfold answeredCorrectly. simpl.
  rewrite lookup_insert_ne by congruence. reflexivity.
Qed.

Lemma answeredCorrectly_answer_same (s : ExamState) (o : Z) (k : nat) (q : Question) :
  questions s !! k = Some q ->
  answeredCorrectly (handleAnswer (Z.of_nat k) o s) k
  = bool_decide (o = correctOptionIndex q).
Proof.
  intros H. unfold answeredCorrectly. simpl. rewrite H, lookup_insert_eq.
  apply bool_decide_ext. split; congruence.
Qed.

(** The score of a state is unchanged by an answer recorded at an index
    that is not one of the question list: the handler stores it, the
    scoring loop never reads it. *)
Theorem answer_out_of_range_never_scores (s : ExamState) (i o : Z) :
  ~ inRange s i ->
  calculateScore (handleAnswer i o s) = calculateScore s
  /\ answers (handleAnswer i o s) !! i = Some o.
Proof.
  intros Hout. split; [|apply lookup_insert_eq].
  rewrite !calculateScore_correctIndices. unfold correctIndices.
  do 2 f_equal. apply filter_ext_in. intros k Hk. apply in_seq in Hk.
  apply answeredCorrectly_answer_other. intros E. apply Hout.
  unfold inRange. lia.
Qed.

Lemma answer_out_of_range_never_scores_witness :
  calculateScore (handleAnswer 7 1 answeredFirst) = calculateScore answeredFirst
  /\ answers (handleAnswer 7 1 answeredFirst) !! 7 = Some 1.
Proof.
  apply (answer_out_of_range_never_scores answeredFirst 7 1).
  unfold inRange. simpl. lia.
Defined.

Lemma seq_split_at (n i : nat) :
  (i < n)%nat -> seq 0 n = seq 0 i ++ i :: seq (S i) (n - S i).
Proof.
  intros H. replace n with (i + S (n - S i))%nat at 1 by lia.
  now rewrite seq_app.
Qed.

(** An answer to question [i] moves the score by that question alone:
    one point is lost if the answer replaced was the correct option, one
    is gained if the new answer is. *)
Theorem answer_changes_score_by_its_question
        (s : ExamState) (i : nat) (o : Z) (q : Question) :
  questions s !! i = Some q ->
  calculateScore (handleAnswer (Z.of_nat i) o s)
  = calculateScore s
    - (if answeredCorrectly s i then 1 else 0)
    + (if bool_decide (o = correctOptionIndex q) then 1 else 0).
Proof.
  intros Hq. pose proof (lookup_lt_Some _ _ _ Hq) as Hlt.
  rewrite !calculateScore_correctIndices. unfold correctIndices.
  cbn [questions handleAnswer].
  rewrite (seq_split_at _ _ Hlt), !List.filter_app. cbn [List.filter].
  rewrite (answeredCorrectly_answer_same _ _ _ _ Hq).
  rewrite (filter_ext_in (answeredCorrectly (handleAnswer (Z.of_nat i) o s))
             (answeredCorrectly s) (seq 0 i)).
  2:{ intros k Hk. apply in_seq in Hk.
      apply answeredCorrectly_answer_other. lia. }
  rewrite (filter_ext_in (answeredCorrectly (handleAnswer (Z.of_nat i) o s))
             (answeredCorrectly s) (seq (S i) _)).
  2:{ intros k Hk. apply in_seq in Hk.
      apply answeredCorrectly_answer_other. lia. }
  destruct (answeredCorrectly s i), (bool_decide (o = correctOptionIndex q));
    rewrite !length_app; cbn [length]; lia.
Qed.

Lemma answer_changes_score_by_its_question_witness :
  calculateScore (handleAnswer (Z.of_nat 1) 2 answeredFirst)
  = calculateScore answeredFirst - 0 + 1.
Proof.
  apply (answer_changes_score_by_its_question answeredFirst 1 2 (question 2)).
  reflexivity.
Defined.

Lemma filter_length_all {A} (f : A -> bool) (l : list A) :
  length (List.filter f l) = length l <-> forall x, In x l -> f x = true.
Proof.
  induction l as [|a l IH]; simpl; [tauto|].
  pose proof (filter_length_le f l) as Hle.
  destruct (f a) eqn:E; simpl.
  - split.
    + intros H x [<- | Hx]; [assumption|]. apply IH; [lia | assumption].
    + intros H. f_equal. apply IH. auto.
  - split; [lia|]. intros H. specialize (H a (or_introl eq_refl)). congruence.
Qed.

(** The score is the number of questions exactly when every question
    has its correct option recorded, and it lies between zero and the
    number of questions in every case. *)
Theorem full_score_iff_all_correct (s : ExamState) :
  0 <= calculateScore s <= Z.of_nat (length (questions s))
  /\ (calculateScore s = Z.of_nat (length (questions s)) <->
      forall (i : nat) (q : Question),
        questions s !! i = Some q ->
        answers s !! Z.of_nat i = Some (correctOptionIndex q))
  /\ (answers s = ∅ -> calculateScore s = 0).
Proof.
  split; [apply calculateScore_bounds|]. split.
  - rewrite calculateScore_correctIndices. unfold correctIndices.
    rewrite Nat2Z.inj_iff.
    pose proof (filter_length_all (answeredCorrectly s)
                  (seq 0 (length (questions s)))) as Hall.
    rewrite length_seq in Hall. rewrite Hall. split.
    + intros H i q Hq.
      assert (Hin : In i (seq 0 (length (questions s)))).
      { apply in_seq. apply lookup_lt_Some in Hq. lia. }
      specialize (H i Hin). unfold answeredCorrectly in H. rewrite Hq in H.
      now apply bool_decide_eq_true in H.
    + intros H i Hi. apply in_seq in Hi. unfold answeredCorrectly.
      destruct (questions s !! i) as [q|] eqn:Hq.
      * apply bool_decide_eq_true. now apply H.
      * apply lookup_ge_None in Hq. lia.
  - intros Hempty. rewrite calculateScore_correctIndices.
    destruct (correctIndices s) as [|i l] eqn:E; [reflexivity|].
    assert (Hin : In i (correctIndices s)) by (rewrite E; now left).
    apply In_correctIndices in Hin as (q & _ & Ha).
    rewrite Hempty, lookup_empty in Ha. discriminate.
Qed.

Lemma full_score_iff_all_correct_witness :
  calculateScore twoQuestions = 0
  /\ calculateScore (handleAnswer 1 2 answeredFirst) = Z.of_nat 2.
Proof.
  split.
  - apply (proj2 (proj2 (full_score_iff_all_correct twoQuestions))). reflexivity.
  - apply (proj2 (proj1 (proj2 (full_score_iff_all_correct
                                  (handleAnswer 1 2 answeredFirst))))).
    intros [|[|i]] q Hq; simpl in Hq; try discriminate Hq;
      injection Hq as <-; reflexivity.
Defined.

Lemma step_score_bounds (s : ExamState) (e : Event) :
  0 <= score s <= Z.of_nat (length (questions s)) ->
  0 <= score (step s e) <= Z.of_nat (length (questions (step s e))).
Proof.
  intros H. destruct e; simpl; try assumption; try lia.
  - unfold tick, timerUpdater. destruct (timerArmed s); [|assumption].
    destruct (timeRemaining s <=? 1); simpl; [apply calculateScore_bounds | assumption].
  - apply calculateScore_bounds.
Qed.

(** In every state the engine's events can produce from the initial
    one, whatever their order, the score lies between zero and the number
    of questions. *)
Theorem score_bounded_in_every_run (evs : list Event) :
  0 <= score (run evs initialState)
    <= Z.of_nat (length (questions (run evs initialState))).
Proof.
  unfold run.
  assert (G : forall s, 0 <= score s <= Z.of_nat (length (questions s)) ->
              0 <= score (fold_left step evs s)
                <= Z.of_nat (length (questions (fold_left step evs s)))).
  { induction evs as [|e evs IH]; intros s Hs; simpl; [assumption|].
    apply IH. now apply step_score_bounds. }
  apply G. simpl. lia.
Qed.

(** Toggling a flag twice gives back the flag as the views read it and
    leaves the other indices alone, but the map need not be the one before:
    an index never flagged is then present, with false.  Three toggles are
    one. *)
Theorem flag_toggled_twice (s : ExamState) (i : Z) :
  default false (flagged (handleFlag i s) !! i)
  = negb (default false (flagged s !! i))
  /\ default false (flagged (handleFlag i (handleFlag i s)) !! i)
     = default false (flagged s !! i)
  /\ (forall k : Z, k <> i ->
         flagged (handleFlag i (handleFlag i s)) !! k = flagged s !! k)
  /\ flagged (handleFlag i (handleFlag i s)) !! i
     = Some (default false (flagged s !! i))
  /\ handleFlag i (handleFlag i (handleFlag i s)) = handleFlag i s
  /\ calculateScore (handleFlag i s) = calculateScore s.
Proof.
  unfold handleFlag, notFlagged. simpl.
  rewrite !lookup_insert_eq. simpl. rewrite !negb_involutive.
  repeat split.
  - intros k Hk. now rewrite !lookup_insert_ne.
  - now rewrite !insert_insert_eq.
Qed.

Lemma flag_toggled_twice_witness :
  flagged (handleFlag 0 (handleFlag 0 answeredFirst)) !! 1
  = flagged answeredFirst !! 1.
Proof.
  apply (proj1 (proj2 (proj2 (flag_toggled_twice answeredFirst 0))) 1). lia.
Defined.

End AnswersAndScore.

(* ===================================================================== *)
(** ** The exam and practice views: what a session on screen can reach *)
(* ===================================================================== *)

Section ViewRuns.
Import Session ExamView Samples.

Lemma wellFormed_same_data (s s' : ExamState) :
  questions s' = questions s ->
  currentQuestionIndex s' = currentQuestionIndex s ->
  answers s' = answers s ->
  flagged s' = flagged s ->
  wellFormed s -> wellFormed s'.
Proof.
  unfold wellFormed, inRange. intros -> -> -> ->. tauto.
Qed.

Lemma currentQuestion_Some (s : ExamState) (q : Question) :
  currentQuestion s = Some q ->
  inRange s (currentQuestionIndex s)
  /\ questions s !! Z.to_nat (currentQuestionIndex s) = Some q.
Proof.
  unfold currentQuestion, inRange.
  destruct (Z.ltb_spec (currentQuestionIndex s) 0) as [Hneg | Hpos];
    [discriminate|].
  intros Hq. split; [|assumption]. apply lookup_lt_Some in Hq. lia.
Qed.

Lemma wellFormed_navigate (s : ExamState) (i : Z) :
  inRange s i -> wellFormed s -> wellFormed (handleNavigate i s).
Proof. unfold wellFormed, inRange. simpl. tauto. Qed.

Lemma wellFormed_answer (s : ExamState) (q : Question) (idx : nat) :
  currentQuestion s = Some q -> (idx < length (options q))%nat ->
  wellFormed s ->
  wellFormed (handleAnswer (currentQuestionIndex s) (Z.of_nat idx) s).
Proof.
  intros Hq Hidx (Hcur & Ha & Hf & Ho).
  apply currentQuestion_Some in Hq as [Hin Hq].
  unfold wellFormed, inRange in *. simpl.
  split; [assumption|]. split; [|split; [assumption|]].
  - intros k Hk.
    apply lookup_insert_is_Some in Hk as [<- | [_ Hk]]; [assumption | now apply Ha].
  - intros k o Hk. destruct (decide (currentQuestionIndex s = k)) as [<- | Hne].
    + rewrite lookup_insert_eq in Hk. injection Hk as <-.
      exists q. split; [assumption | lia].
    + rewrite lookup_insert_ne in Hk by assumption. now apply Ho.
Qed.

Lemma wellFormed_flag (s : ExamState) :
  wellFormed s -> wellFormed (handleFlag (currentQuestionIndex s) s).
Proof.
  intros (Hcur & Ha & Hf & Ho). unfold wellFormed, inRange in *. simpl.
  split; [assumption|]. split; [assumption|]. split; [|assumption].
  intros k Hk.
  apply lookup_insert_is_Some in Hk as [<- | [_ Hk]]; [assumption | now apply Hf].
Qed.

Lemma wellFormed_tick (s : ExamState) : wellFormed s -> wellFormed (tick s).
Proof.
  unfold tick, timerUpdater. destruct (timerArmed s); [|tauto].
  destruct (timeRemaining s <=? 1); now apply wellFormed_same_data.
Qed.

Lemma wellFormed_viewHandleSubmit (confirmed : bool) (s : ExamState) :
  wellFormed s -> wellFormed (viewHandleSubmit confirmed s).
Proof.
  unfold viewHandleSubmit.
  destruct (unanswered s =? 0); [now apply wellFormed_same_data|].
  destruct confirmed; [now apply wellFormed_same_data | tauto].
Qed.

Lemma click_wellFormed (v : Screen) (s s' : ExamState) (c : Click) :
  wellFormed s -> click v s c = Some s' ->
  wellFormed s' \/ s' = initialState.
Proof.
  intros Hwf. unfold click.
  destruct (negb (bool_decide (status s = active))); [discriminate|].
  destruct (currentQuestion s) as [q|] eqn:Hq; [|discriminate].
  pose proof (currentQuestion_Some _ _ Hq) as [Hcur _].
  assert (Hprev : (currentQuestionIndex s =? 0) = false ->
                  inRange s (currentQuestionIndex s - 1)).
  { intros E. apply Z.eqb_neq in E. unfold inRange in *. lia. }
  assert (Hnext : isLastQuestion s = false ->
                  inRange s (currentQuestionIndex s + 1)).
  { unfold isLastQuestion. intros E. apply Z.eqb_neq in E.
    unfold inRange in *. lia. }
  destruct v, c; try discriminate.
  all: repeat match goal with
         | |- (if ?b then _ else _) = Some _ -> _ => destruct b eqn:?
         end; try discriminate.
  all: intros H; injection H as <-.
  all: first
    [ left; apply (wellFormed_answer s q);
        [assumption | now apply Nat.ltb_lt | assumption]
    | left; apply wellFormed_navigate; [now auto | assumption]
    | left; apply wellFormed_navigate; [|assumption];
        unfold inRange;
        match goal with
        | Hlt : (_ <? _)%nat = true |- _ => apply Nat.ltb_lt in Hlt; lia
        end
    | left; now apply wellFormed_viewHandleSubmit
    | left; now apply wellFormed_flag
    | destruct confirmed; [right; reflexivity | left; assumption] ].
Qed.

Lemma click_needs_active (v : Screen) (s : ExamState) (c : Click) :
  status s <> active -> click v s c = None.
Proof.
  intros H. unfold click. now rewrite bool_decide_eq_false_2.
Qed.

Lemma uiStep_invariant (v : Screen) (s s' : ExamState) (e : UiEvent) :
  wellFormed s \/ s = initialState ->
  uiStep v s e = Some s' ->
  wellFormed s' \/ s' = initialState.
Proof.
  intros [Hwf | ->] H; destruct e as [c|]; simpl in H.
  - now apply (click_wellFormed v s s' c).
  - injection H as <-. left. now apply wellFormed_tick.
  - rewrite click_needs_active in H by discriminate. discriminate.
  - injection H as <-. now right.
Qed.

Lemma uiRun_invariant (v : Screen) (evs : list UiEvent) (s s' : ExamState) :
  wellFormed s \/ s = initialState ->
  uiRun v s evs = Some s' ->
  wellFormed s' \/ s' = initialState.
Proof.
  revert s. induction evs as [|e evs IH]; intros s Hs H; simpl in H.
  - injection H as <-. assumption.
  - destruct (uiStep v s e) as [s1|] eqn:E; [|discriminate].
    apply (IH s1); [|assumption]. now apply (uiStep_invariant v s s1 e).
Qed.

(** A session generated with at least one question and driven from the
    exam or the practice view by presses and passing seconds only ever
    holds answers and flags of its own questions, each answer one of its
    question's options, and a current index inside the list; or, after
    the practice view's exit, the initial state. *)
Theorem session_on_screen_stays_well_formed
        (v : Screen) (qs : list Question) (cfg : ExamConfig) (now : Z)
        (evs : list UiEvent) (s' : ExamState) :
  qs <> [] ->
  uiRun v (generationSucceeded qs cfg now) evs = Some s' ->
  wellFormed s' \/ s' = initialState.
Proof.
  intros Hqs. apply uiRun_invariant. left.
  unfold wellFormed, inRange. simpl.
  split; [|split; [|split]].
  - destruct qs; [contradiction | simpl; lia].
  - intros k [x Hk]. rewrite lookup_empty in Hk. discriminate.
  - intros k [x Hk]. rewrite lookup_empty in Hk. discriminate.
  - intros k o Hk. rewrite lookup_empty in Hk. discriminate.
Qed.

Lemma session_on_screen_stays_well_formed_witness :
  wellFormed (handleNavigate 1 (handleAnswer 0 2 (tick twoQuestions)))
  \/ handleNavigate 1 (handleAnswer 0 2 (tick twoQuestions)) = initialState.
Proof.
  apply (session_on_screen_stays_well_formed ExamScreen
           [question 1; question 2] practiceConfig 0
           [Second; Press (ClickOption 2); Press ClickNext]).
  - discriminate.
  - reflexivity.
Defined.

End ViewRuns.

Section FinishButton.
Import Session ExamView Samples.

(** The indices of the question list, as a set. *)
Lemma answered_keys_in_range (s : ExamState) :
  answersInRange s ->
  dom (answers s) ⊆ (list_to_set (Z.of_nat <$> seq 0 (length (questions s))) : gset Z).
Proof.
  intros Ha k Hk. apply elem_of_dom in Hk. apply Ha in Hk.
  apply elem_of_list_to_set, list_elem_of_fmap.
  exists (Z.to_nat k). unfold inRange in Hk. split; [lia|].
  apply elem_of_seq. lia.
Qed.

Lemma size_question_indices (n : nat) :
  size (list_to_set (Z.of_nat <$> seq 0 n) : gset Z) = n.
Proof.
  rewrite size_list_to_set, length_fmap, length_seq; [reflexivity|].
  apply NoDup_fmap_2; [apply _ | apply NoDup_seq].
Qed.

(** For a session whose answers are all at indices of its questions,
    the count of unanswered questions the submit buttons compute is not
    negative, and it is zero, so that submit goes through without
    asking, exactly when every question of the list has an answer.  With
    a question unanswered, a declined confirmation leaves the state as it
    is and an accepted one submits. *)
Theorem finish_asks_unless_all_answered (s : ExamState) :
  answersInRange s ->
  0 <= unanswered s <= Z.of_nat (length (questions s))
  /\ (unanswered s = 0 <->
      forall i : Z, inRange s i -> is_Some (answers s !! i))
  /\ (allAnswered s = true <-> unanswered s = 0)
  /\ (forall confirmed : bool,
         unanswered s = 0 -> viewHandleSubmit confirmed s = handleSubmit s)
  /\ (unanswered s <> 0 ->
      viewHandleSubmit false s = s
      /\ viewHandleSubmit true s = handleSubmit s).
Proof.
  intros Hwf. pose proof (answered_keys_in_range s Hwf) as Hsub.
  pose proof (subseteq_size _ _ Hsub) as Hsize.
  rewrite size_dom, size_question_indices in Hsize.
  unfold viewHandleSubmit, allAnswered, unanswered, answeredCount.
  split; [lia|]. split; [|split; [|split]].
  - split.
    + intros Hz i Hi.
      assert (E : dom (answers s)
                  = (list_to_set (Z.of_nat <$> seq 0 (length (questions s))) : gset Z)).
      { apply set_subseteq_size_eq; [assumption|].
        rewrite size_dom, size_question_indices. lia. }
      apply elem_of_dom. rewrite E.
      apply elem_of_list_to_set, list_elem_of_fmap.
      exists (Z.to_nat i). unfold inRange in Hi. split; [lia|].
      apply elem_of_seq. lia.
    + intros Hall.
      assert (Hsup : (list_to_set (Z.of_nat <$> seq 0 (length (questions s))) : gset Z)
                     ⊆ dom (answers s)).
      { intros k Hk. apply elem_of_list_to_set, list_elem_of_fmap in Hk
          as (j & -> & Hj). apply elem_of_seq in Hj.
        apply elem_of_dom, Hall. unfold inRange. lia. }
      apply subseteq_size in Hsup.
      rewrite size_dom, size_question_indices in Hsup. lia.
  - rewrite Z.eqb_eq. lia.
  - intros confirmed Hz. now rewrite (proj2 (Z.eqb_eq _ _) Hz).
  - intros Hnz. now rewrite (proj2 (Z.eqb_neq _ _) Hnz).
Qed.

Lemma finish_asks_unless_all_answered_witness :
  viewHandleSubmit false (handleAnswer 0 9 twoQuestions)
  = handleAnswer 0 9 twoQuestions
  /\ viewHandleSubmit true (handleAnswer 0 9 twoQuestions)
     = handleSubmit (handleAnswer 0 9 twoQuestions).
Proof.
  assert (Hin : answersInRange (handleAnswer 0 9 twoQuestions)).
  { unfold answersInRange, inRange. simpl. intros k [x Hk].
    apply lookup_insert_Some in Hk as [[<- _] | [_ Hk]];
      [lia | rewrite lookup_empty in Hk; discriminate]. }
  apply (proj2 (proj2 (proj2 (proj2 (finish_asks_unless_all_answered
                                       (handleAnswer 0 9 twoQuestions) Hin))))).
  discriminate.
Defined.

Lemma uiRun_finished_stays (v : Screen) (evs : list UiEvent) (s s' : ExamState) :
  status s <> active -> uiRun v s evs = Some s' ->
  s' = s /\ Forall (fun e => e = Second) evs.
Proof.
  intros Hs. induction evs as [|e evs IH]; simpl.
  - intros H; injection H as <-. split; [reflexivity | constructor].
  - destruct e as [c|]; simpl.
    + now rewrite click_needs_active.
    + rewrite tick_inactive by assumption. intros H.
      destruct (IH H) as [-> Hall]. split; [reflexivity | now constructor].
Qed.

End FinishButton.

(* ===================================================================== *)
(** ** The clock of the views *)
(* ===================================================================== *)

Section Clock.
Import Js JsNumber ExamView.

Lemma padded_below_hundred_checked :
  forallb (fun k => bool_decide
                      (padStart 2 48%N (numberToString (Z.of_nat k))
                       = twoDigitsOf (Z.of_nat k)))
          (seq 0 100) = true.
Proof. vm_compute. reflexivity. Qed.

Lemma padded_below_hundred (n : Z) :
  0 <= n < 100 -> padStart 2 48%N (numberToString n) = twoDigitsOf n.
Proof.
  intros Hn. pose proof padded_below_hundred_checked as H.
  rewrite forallb_forall in H. specialize (H (Z.to_nat n)).
  rewrite Z2Nat.id in H by lia.
  eapply bool_decide_eq_true_1. apply H. apply in_seq. lia.
Qed.

Lemma twoDigitsOf_inj (a b : Z) :
  0 <= a < 100 -> 0 <= b < 100 -> twoDigitsOf a = twoDigitsOf b -> a = b.
Proof.
  intros Ha Hb H. unfold twoDigitsOf in H. injection H as H1 H2.
  pose proof (Z.div_mod a 10). pose proof (Z.div_mod b 10).
  pose proof (Z.mod_pos_bound a 10). pose proof (Z.mod_pos_bound b 10).
  assert (0 <= a / 10) by (apply Z.div_pos; lia).
  assert (0 <= b / 10) by (apply Z.div_pos; lia).
  apply Z2N.inj in H1; [|lia|lia]. apply Z2N.inj in H2; [|lia|lia]. lia.
Qed.

(** For a time below a hundred minutes [formatTime] shows five units:
    the two digits of the minutes, a colon, the two digits of the seconds
    of the minute; and two such times that show the same are the same. *)
Theorem formatTime_minutes_and_seconds (seconds : Z) :
  0 <= seconds < 6000 ->
  formatTime seconds
  = twoDigitsOf (seconds / 60) ++ 58%N :: twoDigitsOf (seconds mod 60)
  /\ length (formatTime seconds) = 5%nat
  /\ (forall other : Z,
         0 <= other < 6000 ->
         formatTime other = formatTime seconds -> other = seconds).
Proof.
  assert (Hshape : forall t, 0 <= t < 6000 ->
            formatTime t = twoDigitsOf (t / 60) ++ 58%N :: twoDigitsOf (t mod 60)).
  { intros t Ht. unfold formatTime. rewrite Z.rem_mod_nonneg by lia.
    assert (0 <= t / 60 < 100)
      by (split; [apply Z.div_pos; lia | apply Z.div_lt_upper_bound; lia]).
    pose proof (Z.mod_pos_bound t 60).
    now rewrite !padded_below_hundred by lia. }
  intros Hs. split; [now apply Hshape|]. split.
  - rewrite Hshape by assumption. reflexivity.
  - intros other Ho E. rewrite !Hshape in E by assumption.
    assert (0 <= seconds / 60 < 100)
      by (split; [apply Z.div_pos; lia | apply Z.div_lt_upper_bound; lia]).
    assert (0 <= other / 60 < 100)
      by (split; [apply Z.div_pos; lia | apply Z.div_lt_upper_bound; lia]).
    pose proof (Z.mod_pos_bound seconds 60). pose proof (Z.mod_pos_bound other 60).
    unfold twoDigitsOf at 1 3 in E. cbn [app] in E.
    injection E as E1 E2 E3 E4.
    assert (Em : other / 60 = seconds / 60).
    { apply twoDigitsOf_inj; [lia | lia |]. unfold twoDigitsOf. congruence. }
    assert (Es : other mod 60 = seconds mod 60)
      by (apply twoDigitsOf_inj; [lia | lia | unfold twoDigitsOf; congruence]).
    pose proof (Z.div_mod seconds 60). pose proof (Z.div_mod other 60). lia.
Qed.

Lemma formatTime_minutes_and_seconds_witness :
  formatTime 4500 = lit "75:00" /\ length (formatTime 4500) = 5%nat.
Proof.
  destruct (formatTime_minutes_and_seconds 4500) as (H1 & H2 & _); [lia|].
  split; [exact H1 | exact H2].
Defined.

End Clock.

(* ===================================================================== *)
(** ** The application: which view, which handlers *)
(* ===================================================================== *)

Section Views.
Import Session AppFlow Samples.

(** The handlers that write to a running session reach the user only
    while the session is active: the view that holds one is the exam view
    in exam mode or the practice view in practice mode; the flag handler
    comes with the exam view only, the exit handler with the practice view
    only.  The restart handler reaches the user only when a configuration
    is held and the session is neither waiting nor running. *)
Theorem session_handlers_only_while_active (app : App) (h : Handler) :
  In h (handlersOf (renderContent app)) ->
  (writesSession h = true ->
   status (examState app) = active
   /\ (mode app = EXAM /\ renderContent app = ExamScreen
       \/ mode app = PRACTICE /\ renderContent app = PracticeQuizScreen)
   /\ (h = onFlag -> mode app = EXAM)
   /\ (h = onExit -> mode app = PRACTICE))
  /\ (h = onRestart ->
      config app <> None
      /\ status (examState app) <> active
      /\ status (examState app) <> idle
      /\ status (examState app) <> loading).
Proof.
  unfold renderContent.
  destruct (mode app), (status (examState app)), (config app); simpl;
    intros Hin; repeat (destruct Hin as [<- | Hin]); try contradiction;
    split; intros Hw; try discriminate Hw;
    repeat split; try discriminate; auto.
Qed.

Lemma session_handlers_only_while_active_witness :
  status answeredFirst = active.
Proof.
  apply (proj1 (session_handlers_only_while_active
                  {| mode := EXAM; examState := answeredFirst;
                     config := Some practiceConfig |} onFlag
                  (or_intror (or_introl eq_refl)))).
  reflexivity.
Defined.

(** After restart, and after a confirmed exit from practice, the user
    is on the setup screen (exam mode) or on the classes screen, with the
    initial exam state.  A failed generation puts exam mode back on the
    setup screen, where a new request can be made; started for practice it
    leaves nothing rendered, no handler and no navigation bar. *)
Theorem where_restart_exit_and_failure_lead
        (app : App) (cfg : ExamConfig) :
  (renderContent (handleRestart app)
   = match mode app with EXAM => SetupScreen | _ => ClassesScreen end)
  /\ renderContent (handleExitPractice true app) = ClassesScreen
  /\ handleExitPractice false app = app
  /\ renderContent (generationRejected cfg EXAM app) = SetupScreen
  /\ renderContent (generationRejected cfg CLASSES app) = ClassesScreen
  /\ (renderContent (generationRejected cfg PRACTICE app) = NoView
      /\ handlersOf (renderContent (generationRejected cfg PRACTICE app)) = []
      /\ navigationVisible (generationRejected cfg PRACTICE app) = false).
Proof.
  repeat split. unfold handleRestart, renderContent. simpl.
  now destruct (mode app).
Qed.

End Views.

(* ===================================================================== *)
(** ** The results view: percentage, pass mark and review *)
(* ===================================================================== *)

Section ResultsFacts.
Import Session Results ResultsView ExamView Samples.

Lemma percentage_checked_upto_50 :
  forallb (fun total => forallb (percentageChecked total) (seq 0 (S total)))
          (seq 1 50) = true.
Proof. vm_compute. reflexivity. Qed.

(** With one to fifty questions and a score from zero to their number,
    the percentage shown is an integer from 0 to 100 that differs from the
    exact ratio by half a point at most, and the session passes exactly
    when at least half of the questions are right. *)
Theorem percentage_and_pass_mark (s : ExamState) :
  (1 <= length (questions s) <= 50)%nat ->
  0 <= score s <= Z.of_nat (length (questions s)) ->
  exists p : Z,
    percentage s = RInteger p
    /\ 0 <= p <= 100
    /\ Z.abs (2 * (p * Z.of_nat (length (questions s)) - 100 * score s))
       <= Z.of_nat (length (questions s))
    /\ (isPass s = true <-> Z.of_nat (length (questions s)) <= 2 * score s).
Proof.
  intros Hlen Hscore. pose proof percentage_checked_upto_50 as H.
  rewrite forallb_forall in H.
  specialize (H (length (questions s))). rewrite forallb_forall in H.
  assert (Ht : In (length (questions s)) (seq 1 50)) by (apply in_seq; lia).
  assert (Hc : In (Z.to_nat (score s)) (seq 0 (S (length (questions s)))))
    by (apply in_seq; lia).
  specialize (H Ht _ Hc). unfold percentageChecked in H.
  rewrite Z2Nat.id in H by lia.
  unfold isPass, percentage.
  destruct (percentageOf (number (score s))
              (number (Z.of_nat (length (questions s))))) as [| |p];
    try discriminate H.
  exists p. apply andb_prop in H as [H H4]. apply andb_prop in H as [H H3].
  apply andb_prop in H as [H1 H2].
  apply Z.leb_le in H1, H2, H3. apply Bool.eqb_prop in H4.
  repeat split; try assumption.
  - intros Hp. rewrite H4 in Hp. now apply Z.leb_le.
  - intros Hp. rewrite H4. now apply Z.leb_le.
Qed.

Lemma percentage_and_pass_mark_witness :
  exists p : Z,
    percentage finishedExam = RInteger p
    /\ 0 <= p <= 100
    /\ Z.abs (2 * (p * Z.of_nat (length (questions finishedExam))
                   - 100 * score finishedExam))
       <= Z.of_nat (length (questions finishedExam))
    /\ (isPass finishedExam = true
        <-> Z.of_nat (length (questions finishedExam)) <= 2 * score finishedExam).
Proof.
  apply (percentage_and_pass_mark finishedExam).
  - simpl. lia.
  - change (0 <= 1 <= 2). lia.
Defined.

(** The marks of the questions from index [n] on. *)
Lemma countCorrect_from (st : ExamState) (qs : list Question) (n : nat) (acc : Z) :
  forEachScore (answers st) qs (Z.of_nat n) acc
  = acc + Z.of_nat (length (List.filter (isMark MarkCorrect)
                              (imap (fun i => reviewMark st (n + i)) qs))).
Proof.
  revert n acc. induction qs as [|q rest IH]; intros n acc.
  - simpl. lia.
  - cbn [forEachScore imap List.filter].
    replace (Z.of_nat n + 1) with (Z.of_nat (S n)) by lia. rewrite IH.
    rewrite (imap_ext (fun i => reviewMark st (S n + i))
                      ((fun i => reviewMark st (n + i)) ∘ S))
      by (intros i x _; simpl; f_equal; lia).
    rewrite Nat.add_0_r.
    assert (Ehead : isMark MarkCorrect (reviewMark st n q)
                    = bool_decide (answers st !! Z.of_nat n
                                   = Some (correctOptionIndex q))).
    { unfold reviewMark. destruct (answers st !! Z.of_nat n) as [a|].
      - rewrite (bool_decide_ext (Some a = Some (correctOptionIndex q))
                                 (a = correctOptionIndex q))
          by (split; congruence).
        now destruct (bool_decide (a = correctOptionIndex q)).
      - now rewrite bool_decide_eq_false_2 by discriminate. }
    rewrite Ehead.
    destruct (bool_decide (answers st !! Z.of_nat n = Some (correctOptionIndex q)));
      cbn [length]; lia.
Qed.

(** The review agrees with the scoring function: the number of
    questions it marks correct is [calculateScore], and every question
    carries exactly one of the three marks. *)
Theorem review_marks_agree_with_score (s : ExamState) :
  countMarks MarkCorrect s = calculateScore s
  /\ countMarks MarkCorrect s + countMarks MarkSkipped s + countMarks MarkWrong s
     = Z.of_nat (length (questions s))
  /\ (forall (i : nat) (q : Question),
         questions s !! i = Some q ->
         reviewMarks s !! i = Some (reviewMark s i q)
         /\ (reviewMark s i q = MarkSkipped <-> answers s !! Z.of_nat i = None)
         /\ (reviewMark s i q = MarkCorrect <->
             answers s !! Z.of_nat i = Some (correctOptionIndex q))).
Proof.
  split; [|split].
  - unfold countMarks, calculateScore, reviewMarks.
    change (forEachScore (answers s) (questions s) 0 0)
      with (forEachScore (answers s) (questions s) (Z.of_nat 0) 0).
    rewrite (countCorrect_from s (questions s) 0 0). reflexivity.
  - unfold countMarks.
    rewrite <- (length_imap (reviewMark s) (questions s)).
    fold (reviewMarks s).
    induction (reviewMarks s) as [|m l IH]; [reflexivity|].
    cbn [List.filter length]. destruct m; simpl isMark; cbn [length]; lia.
  - intros i q Hq. split; [|split].
    + unfold reviewMarks. rewrite list_lookup_imap, Hq. reflexivity.
    + unfold reviewMark. destruct (answers s !! Z.of_nat i) as [a|].
      * destruct (bool_decide (a = correctOptionIndex q)); split; discriminate.
      * tauto.
    + unfold reviewMark. destruct (answers s !! Z.of_nat i) as [a|].
      * destruct (bool_decide (a = correctOptionIndex q)) eqn:E.
        -- apply bool_decide_eq_true in E. subst. tauto.
        -- apply bool_decide_eq_false in E. split; [discriminate | congruence].
      * split; discriminate.
Qed.

Lemma review_marks_agree_with_score_witness :
  reviewMarks finishedExam !! 1%nat = Some (reviewMark finishedExam 1 (question 2)).
Proof.
  apply (proj2 (proj2 (review_marks_agree_with_score finishedExam)) 1%nat (question 2)).
  reflexivity.
Defined.

End ResultsFacts.

(* ===================================================================== *)
(** ** More on trimming and splitting *)
(* ===================================================================== *)

Section TrimFacts.
Import Js.

Lemma trimStart_idempotent (s : jsstring) :
  trimStart (trimStart s) = trimStart s.
Proof.
  induction s as [|c s IH]; simpl; [reflexivity|].
  destruct (isWhiteSpace c) eqn:E; [exact IH | simpl; now rewrite E].
Qed.

Lemma trimStart_fixed (c : N) (t : jsstring) :
  isWhiteSpace c = false -> trimStart (c :: t) = c :: t.
Proof. intros H. simpl. now rewrite H. Qed.

(** [trimStart] never eats a unit that is not white space. *)
Lemma trimStart_app_nonws (u v : jsstring) (c : N) :
  isWhiteSpace c = false ->
  trimStart (u ++ c :: v) = trimStart (u ++ [c]) ++ v.
Proof.
  intros Hc. induction u as [|d u IH]; simpl.
  - now rewrite Hc.
  - destruct (isWhiteSpace d); [exact IH|]. simpl. now rewrite <- app_assoc.
Qed.

Lemma trimStart_snoc_nonws (u : jsstring) (c : N) :
  isWhiteSpace c = false -> exists w, trimStart (u ++ [c]) = w ++ [c].
Proof.
  intros Hc. induction u as [|d u IH]; simpl.
  - rewrite Hc. now exists [].
  - destruct (isWhiteSpace d); [exact IH|]. now exists (d :: u).
Qed.

(** [trimEnd] keeps everything up to a unit that is not white space. *)
Lemma trimEnd_app_nonws (a t : jsstring) (c : N) :
  isWhiteSpace c = false ->
  trimEnd (a ++ c :: t) = a ++ trimEnd (c :: t).
Proof.
  intros Hc. unfold trimEnd. rewrite rev_app_distr. simpl rev.
  rewrite <- app_assoc. simpl app.
  rewrite (trimStart_app_nonws (rev t) (rev a) c Hc).
  now rewrite rev_app_distr, rev_involutive.
Qed.

Lemma trimEnd_cons_nonws (c : N) (t : jsstring) :
  isWhiteSpace c = false -> exists t', trimEnd (c :: t) = c :: t'.
Proof.
  intros Hc. unfold trimEnd. simpl rev.
  destruct (trimStart_snoc_nonws (rev t) c Hc) as [w ->].
  rewrite rev_app_distr. simpl. now exists (rev w).
Qed.

Lemma trimEnd_idempotent (s : jsstring) : trimEnd (trimEnd s) = trimEnd s.
Proof.
  unfold trimEnd. now rewrite rev_involutive, trimStart_idempotent.
Qed.

(** What [trim] keeps does not begin with white space. *)
Lemma trim_head (s : jsstring) (c : N) (t : jsstring) :
  trim s = c :: t -> isWhiteSpace c = false.
Proof.
  unfold trim. destruct (trimStart s) as [|d r] eqn:E; [discriminate|].
  pose proof (trimStart_head _ _ _ E) as Hd.
  destruct (trimEnd_cons_nonws d r Hd) as [t' ->].
  intros H; injection H as <- _. exact Hd.
Qed.

Lemma trim_idempotent (s : jsstring) : trim (trim s) = trim s.
Proof.
  destruct (trim s) as [|c t] eqn:E; [reflexivity|].
  pose proof (trim_head _ _ _ E) as Hc. rewrite <- E.
  unfold trim at 1. rewrite E, (trimStart_fixed c t Hc), <- E.
  unfold trim. apply trimEnd_idempotent.
Qed.

Lemma In_trimStart (s : jsstring) (c : N) : In c (trimStart s) -> In c s.
Proof.
  induction s as [|d s IH]; simpl; [tauto|].
  destruct (isWhiteSpace d); simpl; tauto.
Qed.

Lemma In_trim (s : jsstring) (c : N) : In c (trim s) -> In c s.
Proof.
  unfold trim, trimEnd. intros H. apply in_rev, In_trimStart in H.
  apply In_trimStart. now apply in_rev.
Qed.

Lemma In_substring (n : nat) (s : jsstring) (c : N) :
  In c (substring n s) -> In c s.
Proof.
  unfold substring. revert s; induction n as [|n IH]; intros [|d s];
    simpl; try tauto.
  intros H. right. now apply IH.
Qed.

(** No piece of a split holds the separator. *)
Lemma split_aux_no_sep (sep : N) (s cur : jsstring) :
  ~ In sep cur -> Forall (fun piece => ~ In sep piece) (split_aux sep cur s).
Proof.
  revert cur. induction s as [|c s IH]; intros cur Hcur; simpl.
  - constructor; [|constructor]. intros H. now apply in_rev in H.
  - destruct (N.eqb_spec c sep) as [-> | Hne].
    + constructor; [|apply IH; simpl; tauto].
      intros H. now apply in_rev in H.
    + apply IH. simpl. intros [E | H]; [congruence | tauto].
Qed.

Lemma split_no_sep (sep : N) (s : jsstring) :
  Forall (fun piece => ~ In sep piece) (split sep s).
Proof. apply split_aux_no_sep. simpl. tauto. Qed.

End TrimFacts.

(* ===================================================================== *)
(** ** The lesson-section parser: titles and trimmed sections *)
(* ===================================================================== *)

Section ParserTitles.
Import Js Lesson.

(** The title a state would emit if its section were closed now. *)
Lemma titles_from_state (lines : list jsstring) (p : ParserState) :
  map title (sections (pushSection (fold_left processLine lines p)))
  = map title (sections p)
    ++ (if truthy (currentTitle p) then [currentTitle p] else [])
    ++ map (fun l => trim (substring 3 (trim l))) (List.filter isHeader lines).
Proof.
  revert p. induction lines as [|l ls IH]; intros p.
  - cbn [fold_left List.filter map]. rewrite app_nil_r.
    unfold pushSection. destruct (truthy (currentTitle p)); cbn [sections].
    + now rewrite map_app.
    + now rewrite app_nil_r.
  - cbn [fold_left List.filter]. rewrite IH. unfold processLine.
    destruct (isHeader l) eqn:Hl.
    + cbn [sections currentTitle map]. rewrite (header_title_truthy l Hl).
      unfold pushSection. destruct (truthy (currentTitle p)); cbn [sections].
      * rewrite map_app. cbn [map title]. now rewrite <- !app_assoc.
      * reflexivity.
    + destruct (truthy (currentTitle p)) eqn:Ht; cbn [sections currentTitle];
        now rewrite ?Ht.
Qed.

(** The sections of a buffer are its header lines, one for one and in
    order: the titles are the header lines with the marker stripped and
    the rest trimmed, so there are as many sections as header lines. *)
Theorem sections_are_the_header_lines (markdown : jsstring) :
  map title (parseMarkdownToSections markdown)
  = map (fun l => trim (substring 3 (trim l)))
        (List.filter isHeader (split LF markdown))
  /\ length (parseMarkdownToSections markdown)
     = length (List.filter isHeader (split LF markdown)).
Proof.
  assert (H : map title (parseMarkdownToSections markdown)
              = map (fun l => trim (substring 3 (trim l)))
                    (List.filter isHeader (split LF markdown))).
  { unfold parseMarkdownToSections, parseLines.
    now rewrite titles_from_state. }
  split; [exact H|].
  apply (f_equal (@length _)) in H. now rewrite !length_map in H.
Qed.

(** A section as the parser emits it: a title that is not empty, title
    and content without white space at either end, no line feed in the
    title. *)
Lemma processLine_trimmed (good : LessonSection -> Prop) (p : ParserState)
      (line : jsstring) :
  (forall t body, truthy t = true -> trim t = t -> ~ In LF t ->
                  good {| title := t; content := trim (join LF body) |}) ->
  ~ In LF line ->
  Forall good (sections p) /\ trim (currentTitle p) = currentTitle p
  /\ ~ In LF (currentTitle p) ->
  Forall good (sections (processLine p line))
  /\ trim (currentTitle (processLine p line)) = currentTitle (processLine p line)
  /\ ~ In LF (currentTitle (processLine p line)).
Proof.
  intros Hgood Hline (Hs & Ht & Hlf). unfold processLine.
  destruct (isHeader line) eqn:Hl.
  - cbn [sections currentTitle]. split; [|split].
    + unfold pushSection. destruct (truthy (currentTitle p)) eqn:E;
        cbn [sections]; [|assumption].
      apply Forall_app. split; [assumption|].
      constructor; [now apply Hgood | constructor].
    + apply trim_idempotent.
    + intros H. now apply In_trim, In_substring, In_trim in H.
  - destruct (truthy (currentTitle p)); cbn [sections currentTitle]; tauto.
Qed.

Theorem sections_are_trimmed (markdown : jsstring) (sec : LessonSection) :
  In sec (parseMarkdownToSections markdown) ->
  title sec <> []
  /\ trim (title sec) = title sec
  /\ trim (content sec) = content sec
  /\ ~ In LF (title sec).
Proof.
  set (good := fun sec : LessonSection =>
                 title sec <> [] /\ trim (title sec) = title sec
                 /\ trim (content sec) = content sec /\ ~ In LF (title sec)).
  assert (Hgood : forall t body, truthy t = true -> trim t = t -> ~ In LF t ->
                    good {| title := t; content := trim (join LF body) |}).
  { intros t body Ht Htrim Hlf. unfold good. cbn [title content].
    repeat split; try assumption.
    - destruct t; [discriminate Ht | discriminate].
    - apply trim_idempotent. }
  assert (Hloop : forall lines p,
            Forall (fun l => ~ In LF l) lines ->
            Forall good (sections p) /\ trim (currentTitle p) = currentTitle p
            /\ ~ In LF (currentTitle p) ->
            Forall good (sections (pushSection (fold_left processLine lines p)))).
  { induction lines as [|l ls IH]; intros p Hlines Hp.
    - cbn [fold_left]. destruct Hp as (Hs & Ht & Hlf). unfold pushSection.
      destruct (truthy (currentTitle p)) eqn:E; cbn [sections]; [|assumption].
      apply Forall_app. split; [assumption|].
      constructor; [now apply Hgood | constructor].
    - cbn [fold_left]. inversion Hlines as [|? ? Hl Hls]; subst.
      apply IH; [assumption|]. now apply processLine_trimmed. }
  intros Hin.
  assert (Hall : Forall good (parseMarkdownToSections markdown)).
  { apply Hloop; [apply split_no_sep|]. cbn. repeat split.
    - constructor.
    - tauto. }
  rewrite List.Forall_forall in Hall. exact (Hall sec Hin).
Qed.

Lemma sections_are_trimmed_witness :
  title {| title := lit "Intro"; content := lit "Hello" |} <> [].
Proof.
  apply (sections_are_trimmed
           (lit " ##  Intro " ++ LF :: lit "  Hello " ++ LF :: lit "## Body")
           {| title := lit "Intro"; content := lit "Hello" |}).
  vm_compute. left. reflexivity.
Defined.

End ParserTitles.

(* ===================================================================== *)
(** ** The lesson stream: assembling and growing *)
(* ===================================================================== *)

Section LessonStream.
Import Js Lesson Classes.

Lemma receiveChunks_buffer (chunks : list (option jsstring)) (st : StreamState) :
  streamBuffer (receiveChunks chunks st) = streamBuffer st ++ textOf chunks.
Proof.
  revert st. unfold receiveChunks, textOf.
  induction chunks as [|chunk chunks IH]; intros st; simpl.
  - now rewrite app_nil_r.
  - rewrite IH. destruct chunk as [[|c rest]|]; simpl.
    + reflexivity.
    + now rewrite <- app_assoc.
    + reflexivity.
Qed.

Lemma receiveChunks_lesson (chunks : list (option jsstring)) (st : StreamState)
      (t s l : jsstring) :
  lesson st = Some {| topic := t; subject := s; level := l;
                      sections := parseMarkdownToSections (streamBuffer st) |} ->
  lesson (receiveChunks chunks st)
  = Some {| topic := t; subject := s; level := l;
            sections := parseMarkdownToSections
                          (streamBuffer (receiveChunks chunks st)) |}.
Proof.
  revert st. unfold receiveChunks.
  induction chunks as [|chunk chunks IH]; intros st Hst; simpl.
  - assumption.
  - apply IH. destruct chunk as [[|c rest]|]; simpl; try assumption.
    now rewrite Hst.
Qed.

(** Whatever the chunks a lesson arrives in, after them the buffer is
    their text in order and the sections shown are the parse of that whole
    text: where the stream cuts its chunks, even inside a line, makes no
    difference, and a stream that stops early shows the parse of what
    arrived. *)
Theorem stream_shows_parse_of_all_text
        (t s l : jsstring) (st0 : StreamState) (chunks : list (option jsstring)) :
  startClass t s l = Some st0 ->
  receiveChunks chunks st0
  = {| lesson := Some {| topic := t; subject := s; level := l;
                         sections := parseMarkdownToSections (textOf chunks) |};
       streamBuffer := textOf chunks |}
  /\ (forall chunks' : list (option jsstring),
         textOf chunks' = textOf chunks ->
         receiveChunks chunks' st0 = receiveChunks chunks st0).
Proof.
  unfold startClass. destruct (truthy (trim t)); [|discriminate].
  intros H; injection H as <-.
  assert (G : forall cs,
            receiveChunks cs
              {| lesson := Some {| topic := t; subject := s; level := l;
                                   sections := [] |};
                 streamBuffer := [] |}
            = {| lesson := Some {| topic := t; subject := s; level := l;
                                   sections := parseMarkdownToSections (textOf cs) |};
                 streamBuffer := textOf cs |}).
  { intros cs.
    pose proof (receiveChunks_buffer cs
                  {| lesson := Some {| topic := t; subject := s; level := l;
                                       sections := [] |};
                     streamBuffer := [] |}) as Hb.
    pose proof (receiveChunks_lesson cs
                  {| lesson := Some {| topic := t; subject := s; level := l;
                                       sections := [] |};
                     streamBuffer := [] |} t s l eq_refl) as Hl.
    simpl in Hb. rewrite Hb in Hl.
    destruct (receiveChunks cs _) as [les buf]. simpl in *. now subst. }
  split; [apply G|]. intros chunks' E. now rewrite !G, E.
Qed.

Lemma stream_shows_parse_of_all_text_witness :
  receiveChunks [Some (lit "## In"); None; Some (lit "tro" ++ LF :: lit "Hel");
                 Some []; Some (lit "lo")]
                {| lesson := Some {| topic := lit "Leases"; subject := lit "Accounting";
                                     level := lit "Foundation"; sections := [] |};
                   streamBuffer := [] |}
  = {| lesson := Some {| topic := lit "Leases"; subject := lit "Accounting";
                         level := lit "Foundation";
                         sections := [ {| title := lit "Intro";
                                          content := lit "Hello" |} ] |};
       streamBuffer := lit "## Intro" ++ LF :: lit "Hello" |}.
Proof.
  apply (proj1 (stream_shows_parse_of_all_text
                  (lit "Leases") (lit "Accounting") (lit "Foundation") _
                  [Some (lit "## In"); None; Some (lit "tro" ++ LF :: lit "Hel");
                   Some []; Some (lit "lo")] eq_refl)).
Defined.

End LessonStream.

(* ===================================================================== *)
(** ** The lesson stream: sections closed by a later header stay *)
(* ===================================================================== *)

Section LessonGrowth.
Import Js Lesson.

Lemma split_aux_nonempty (sep : N) (s cur : jsstring) :
  split_aux sep cur s <> [].
Proof.
  revert cur. induction s as [|c s IH]; intros cur; simpl; [discriminate|].
  destruct (c =? sep)%N; [discriminate | apply IH].
Qed.

Lemma split_aux_cur (sep : N) (s cur : jsstring) :
  split_aux sep cur s
  = (rev cur ++ hd [] (split_aux sep [] s)) :: tl (split_aux sep [] s).
Proof.
  revert cur. induction s as [|c s IH]; intros cur; simpl.
  - now rewrite app_nil_r.
  - destruct (c =? sep)%N; simpl.
    + now rewrite app_nil_r.
    + rewrite (IH (c :: cur)), (IH [c]). simpl. now rewrite <- app_assoc.
Qed.

(** Appending text to a buffer extends its last line and adds the lines
    that follow. *)
Lemma split_aux_append (sep : N) (a b cur : jsstring) :
  split_aux sep cur (a ++ b)
  = removelast (split_aux sep cur a)
    ++ (List.last (split_aux sep cur a) [] ++ hd [] (split sep b))
       :: tl (split sep b).
Proof.
  revert cur. induction a as [|c a IH]; intros cur; simpl.
  - apply split_aux_cur.
  - destruct (c =? sep)%N.
    + rewrite IH. pose proof (split_aux_nonempty sep a []) as Hne.
      destruct (split_aux sep [] a) as [|x xs] eqn:E; [contradiction|].
      reflexivity.
    + apply IH.
Qed.

Lemma trimStart_suffix (s : jsstring) : exists pre, s = pre ++ trimStart s.
Proof.
  induction s as [|c s [pre IH]]; simpl; [now exists []|].
  destruct (isWhiteSpace c); [|now exists []].
  exists (c :: pre). simpl. now f_equal.
Qed.

Lemma trimEnd_prefix (s : jsstring) : exists w, s = trimEnd s ++ w.
Proof.
  unfold trimEnd. destruct (trimStart_suffix (rev s)) as [pre H].
  exists (rev pre). rewrite <- rev_app_distr, <- H. now rewrite rev_involutive.
Qed.

Lemma trimStart_app_kept (s m : jsstring) :
  trimStart s <> [] -> trimStart (s ++ m) = trimStart s ++ m.
Proof.
  induction s as [|c s IH]; simpl; [congruence|].
  destruct (isWhiteSpace c); [exact IH | reflexivity].
Qed.

(** A header line stays a header line when text is appended to it. *)
Lemma isHeader_app (line more : jsstring) :
  isHeader line = true -> isHeader (line ++ more) = true.
Proof.
  unfold isHeader. intros H. apply startsWith_prefix in H as [rest Hrest].
  apply startsWith_prefix.
  destruct (rev rest) as [|c t] eqn:E;
    apply (f_equal (@rev N)) in E; rewrite rev_involutive in E; simpl in E;
    subst rest.
  - unfold trim in Hrest.
    apply (trimEnd_last _ (lit "##") 32%N) in Hrest. discriminate Hrest.
  - assert (Hc : isWhiteSpace c = false).
    { unfold trim in Hrest. rewrite app_assoc in Hrest.
      exact (trimEnd_last _ _ _ Hrest). }
    destruct (trimEnd_prefix (trimStart line)) as [w Hw].
    fold (trim line) in Hw. rewrite Hrest in Hw.
    assert (Hne : trimStart line <> []).
    { intros E. rewrite E in Hw. symmetry in Hw.
      apply app_eq_nil in Hw as [Hw _]. apply app_eq_nil in Hw as [Hw _].
      discriminate Hw. }
    unfold trim. rewrite (trimStart_app_kept line more Hne), Hw.
    replace (((headerMarker ++ rev t ++ [c]) ++ w) ++ more)
      with ((headerMarker ++ rev t) ++ c :: (w ++ more))
      by (rewrite <- !app_assoc; reflexivity).
    rewrite (trimEnd_app_nonws _ _ c Hc), <- app_assoc.
    now eexists.
Qed.

Lemma pushSection_extends (p : ParserState) :
  sections p `prefix_of` sections (pushSection p).
Proof.
  unfold pushSection. destruct (truthy (currentTitle p)); cbn [sections].
  - now apply prefix_app_r.
  - reflexivity.
Qed.

Lemma processLine_extends (p : ParserState) (line : jsstring) :
  sections p `prefix_of` sections (processLine p line).
Proof.
  unfold processLine. destruct (isHeader line); cbn [sections].
  - apply pushSection_extends.
  - destruct (truthy (currentTitle p)); reflexivity.
Qed.

Lemma loop_extends (lines : list jsstring) (p : ParserState) :
  sections p `prefix_of` sections (pushSection (fold_left processLine lines p)).
Proof.
  revert p. induction lines as [|l ls IH]; intros p; cbn [fold_left].
  - apply pushSection_extends.
  - etransitivity; [apply (processLine_extends p l) | apply IH].
Qed.

Lemma removelast_prefix {A} (l : list A) : removelast l `prefix_of` l.
Proof.
  destruct l as [|x l] using rev_ind; [reflexivity|].
  rewrite removelast_last. now apply prefix_app_r.
Qed.

Lemma parseLines_grow (init : list jsstring) (l l' : jsstring)
      (more : list jsstring) :
  (isHeader l = true -> isHeader l' = true) ->
  removelast (parseLines (init ++ [l]))
  `prefix_of` parseLines (init ++ l' :: more).
Proof.
  intros Hkeep. unfold parseLines. rewrite !fold_left_app. cbn [fold_left].
  set (p := fold_left processLine init emptyParser).
  destruct (isHeader l) eqn:Hl.
  - rewrite (processLine_header p l Hl).
    rewrite (processLine_header p l' (Hkeep eq_refl)).
    unfold pushSection at 1. cbn [sections currentTitle currentContent].
    rewrite (header_title_truthy l Hl). cbn [sections].
    rewrite removelast_last.
    exact (loop_extends more
             {| sections := sections (pushSection p);
                currentTitle := trim (substring 3 (trim l'));
                currentContent := [] |}).
  - assert (Hprev : removelast (sections (pushSection (processLine p l)))
                    `prefix_of` sections p).
    { unfold processLine. rewrite Hl.
      destruct (truthy (currentTitle p)) eqn:Ht.
      - unfold pushSection. cbn [sections currentTitle currentContent].
        rewrite Ht. cbn [sections]. now rewrite removelast_last.
      - unfold pushSection. rewrite Ht. apply removelast_prefix. }
    etransitivity; [exact Hprev|].
    etransitivity; [apply (processLine_extends p l') | apply loop_extends].
Qed.

(** While a lesson streams in, every section but the last one shown is
    final: whatever text is appended to the buffer, the sections parsed
    before, the last one left out, are the first sections parsed after. *)
Theorem closed_sections_never_change (buffer more : jsstring) :
  removelast (parseMarkdownToSections buffer)
  `prefix_of` parseMarkdownToSections (buffer ++ more).
Proof.
  unfold parseMarkdownToSections, split. rewrite split_aux_append.
  pose proof (split_aux_nonempty LF buffer []) as Hne.
  rewrite (app_removelast_last [] Hne) at 1.
  apply parseLines_grow. intros H. now apply isHeader_app.
Qed.

End LessonGrowth.

(* ===================================================================== *)
(** ** Bookmarks *)
(* ===================================================================== *)

Section Bookmarks.
Import Js Classes.

Lemma sameLesson_key (l lesson : LessonDoc) :
  sameLesson l lesson = true <-> lessonKey l = lessonKey lesson.
Proof.
  unfold sameLesson, lessonKey.
  rewrite andb_true_iff, !bool_decide_eq_true. split.
  - intros [-> ->]. reflexivity.
  - intros H. injection H as -> ->. tauto.
Qed.

Lemma sameLesson_refl (l : LessonDoc) : sameLesson l l = true.
Proof. now apply sameLesson_key. Qed.

Lemma existsb_filter_out (lesson : LessonDoc) (saved : list LessonDoc) :
  existsb (fun l => sameLesson l lesson)
          (List.filter (fun l => negb (sameLesson l lesson)) saved) = false.
Proof.
  induction saved as [|x saved IH]; simpl; [reflexivity|].
  destruct (sameLesson x lesson) eqn:E; simpl; [exact IH|].
  now rewrite E.
Qed.

Lemma filter_out_absent (lesson : LessonDoc) (saved : list LessonDoc) :
  existsb (fun l => sameLesson l lesson) saved = false ->
  List.filter (fun l => negb (sameLesson l lesson)) saved = saved.
Proof.
  induction saved as [|x saved IH]; simpl; [reflexivity|].
  destruct (sameLesson x lesson); simpl; [discriminate|].
  intros H. now rewrite IH.
Qed.

Lemma filter_out_twice (lesson : LessonDoc) (saved : list LessonDoc) :
  List.filter (fun l => negb (sameLesson l lesson))
              (List.filter (fun l => negb (sameLesson l lesson)) saved)
  = List.filter (fun l => negb (sameLesson l lesson)) saved.
Proof.
  induction saved as [|x saved IH]; simpl; [reflexivity|].
  destruct (sameLesson x lesson) eqn:E; simpl; [exact IH|].
  rewrite E. simpl. now rewrite IH.
Qed.

(** Toggling the bookmark of the lesson on screen flips whether it is
    bookmarked and leaves the saved lessons of another topic or subject
    as they were, each of them and in the same order.  On a lesson that
    was not bookmarked it puts the lesson in front, and a second toggle
    gives back the saved list as it was; on a bookmarked lesson it
    removes every saved lesson of that topic and subject, and a second
    toggle puts the lesson on screen in front of the others.  With no
    lesson on screen nothing changes. *)
Theorem toggle_flips_bookmark (lesson : LessonDoc) (saved : list LessonDoc) :
  isBookmarked (Some lesson) (toggleBookmark (Some lesson) saved)
  = negb (isBookmarked (Some lesson) saved)
  /\ List.filter (fun l => negb (sameLesson l lesson))
                 (toggleBookmark (Some lesson) saved)
     = List.filter (fun l => negb (sameLesson l lesson)) saved
  /\ (forall other : LessonDoc,
         sameLesson other lesson = false ->
         (In other (toggleBookmark (Some lesson) saved) <-> In other saved))
  /\ (isBookmarked (Some lesson) saved = false ->
      toggleBookmark (Some lesson) saved = lesson :: saved
      /\ toggleBookmark (Some lesson) (toggleBookmark (Some lesson) saved)
         = saved)
  /\ (isBookmarked (Some lesson) saved = true ->
      toggleBookmark (Some lesson) saved
      = List.filter (fun l => negb (sameLesson l lesson)) saved
      /\ toggleBookmark (Some lesson) (toggleBookmark (Some lesson) saved)
         = lesson :: List.filter (fun l => negb (sameLesson l lesson)) saved)
  /\ toggleBookmark None saved = saved.
Proof.
  unfold toggleBookmark, isBookmarked.
  destruct (existsb (fun l => sameLesson l lesson) saved) eqn:E.
  - split; [apply existsb_filter_out|].
    split; [apply filter_out_twice|].
    split; [intros other Ho; rewrite filter_In, Ho; simpl; tauto|].
    split; [discriminate|]. split; [|reflexivity].
    intros _. split; [reflexivity|]. now rewrite existsb_filter_out.
  - split; [simpl; now rewrite sameLesson_refl|].
    split; [simpl; now rewrite sameLesson_refl|].
    split.
    { intros other Ho. simpl. split; [|tauto].
      intros [<- | H]; [|assumption]. rewrite sameLesson_refl in Ho. discriminate. }
    split; [|split; [discriminate | reflexivity]].
    intros _. split; [reflexivity|]. simpl. rewrite sameLesson_refl. simpl.
    now apply filter_out_absent.
Qed.

Lemma toggle_flips_bookmark_witness :
  toggleBookmark
    (Some (mkLesson (lit "Leases") (lit "Accounting") (lit "Final") []))
    (toggleBookmark
       (Some (mkLesson (lit "Leases") (lit "Accounting") (lit "Final") []))
       [mkLesson (lit "Leases") (lit "Law") (lit "Final") []])
  = [mkLesson (lit "Leases") (lit "Law") (lit "Final") []]
  /\ toggleBookmark
       (Some (mkLesson (lit "Leases") (lit "Law") (lit "Final") []))
       (toggleBookmark
          (Some (mkLesson (lit "Leases") (lit "Law") (lit "Final") []))
          [mkLesson (lit "Audit") (lit "Law") (lit "Final") [];
           mkLesson (lit "Leases") (lit "Law") (lit "Foundation") []])
     = [mkLesson (lit "Leases") (lit "Law") (lit "Final") [];
        mkLesson (lit "Audit") (lit "Law") (lit "Final") []].
Proof.
  split.
  - apply (proj1 (proj2 (proj2 (proj2 (toggle_flips_bookmark
             (mkLesson (lit "Leases") (lit "Accounting") (lit "Final") [])
             [mkLesson (lit "Leases") (lit "Law") (lit "Final") []]))))).
    reflexivity.
  - apply (proj1 (proj2 (proj2 (proj2 (proj2 (toggle_flips_bookmark
             (mkLesson (lit "Leases") (lit "Law") (lit "Final") [])
             [mkLesson (lit "Audit") (lit "Law") (lit "Final") [];
              mkLesson (lit "Leases") (lit "Law") (lit "Foundation") []])))))).
    reflexivity.
Defined.

Lemma In_key_filter (f : LessonDoc -> bool) (saved : list LessonDoc) k :
  In k (map lessonKey (List.filter f saved)) -> In k (map lessonKey saved).
Proof.
  rewrite !in_map_iff. intros (x & Hx & Hin). apply filter_In in Hin as [Hin _].
  now exists x.
Qed.

Lemma NoDup_key_filter (f : LessonDoc -> bool) (saved : list LessonDoc) :
  List.NoDup (map lessonKey saved) ->
  List.NoDup (map lessonKey (List.filter f saved)).
Proof.
  induction saved as [|x saved IH]; simpl; [tauto|].
  intros H. inversion H as [|? ? Hx Hrest]; subst.
  destruct (f x); simpl; [|now apply IH].
  constructor; [|now apply IH]. intros Hin. apply Hx.
  now apply In_key_filter in Hin.
Qed.

Lemma In_key_delete (i : nat) (saved : list LessonDoc) k :
  In k (map lessonKey (delete i saved)) -> In k (map lessonKey saved).
Proof.
  revert i. induction saved as [|x saved IH]; intros [|i]; simpl; try tauto.
  intros [H | H]; [tauto | right; now apply (IH i)].
Qed.

Lemma NoDup_key_delete (i : nat) (saved : list LessonDoc) :
  List.NoDup (map lessonKey saved) ->
  List.NoDup (map lessonKey (delete i saved)).
Proof.
  revert i. induction saved as [|x saved IH]; intros [|i]; simpl; try tauto.
  - intros H. now inversion H.
  - intros H. inversion H as [|? ? Hx Hrest]; subst.
    constructor; [|now apply IH]. intros Hin. apply Hx.
    now apply In_key_delete in Hin.
Qed.

Lemma existsb_same_key (lesson : LessonDoc) (saved : list LessonDoc) :
  existsb (fun l => sameLesson l lesson) saved = true
  <-> In (lessonKey lesson) (map lessonKey saved).
Proof.
  rewrite existsb_exists, in_map_iff. split.
  - intros (x & Hin & Hs). exists x. split; [now apply sameLesson_key | assumption].
  - intros (x & Hk & Hin). exists x. split; [assumption | now apply sameLesson_key].
Qed.

Lemma length_filter_out_one (lesson : LessonDoc) (saved : list LessonDoc) :
  List.NoDup (map lessonKey saved) ->
  existsb (fun l => sameLesson l lesson) saved = true ->
  S (length (List.filter (fun l => negb (sameLesson l lesson)) saved))
  = length saved.
Proof.
  induction saved as [|x saved IH]; simpl; [discriminate|].
  intros H. inversion H as [|? ? Hx Hrest]; subst.
  destruct (sameLesson x lesson) eqn:E; simpl.
  - intros _. f_equal. f_equal. apply filter_out_absent.
    destruct (existsb (fun l => sameLesson l lesson) saved) eqn:Ex; [|reflexivity].
    exfalso. apply Hx. apply existsb_same_key in Ex.
    apply sameLesson_key in E. now rewrite E.
  - intros Hex. f_equal. now apply IH.
Qed.

(** A saved list that holds no two lessons of the same topic and
    subject keeps that through every toggle and every delete; on such a
    list removing the bookmark of the lesson on screen removes exactly one
    saved lesson, and a delete that is not confirmed or names no saved
    lesson removes none. *)
Theorem bookmarks_stay_distinct
        (lesson : option LessonDoc) (saved : list LessonDoc)
        (confirmed : bool) (index : nat) :
  List.NoDup (map lessonKey saved) ->
  List.NoDup (map lessonKey (toggleBookmark lesson saved))
  /\ List.NoDup (map lessonKey (deleteBookmark confirmed index saved))
  /\ (isBookmarked lesson saved = true ->
      S (length (toggleBookmark lesson saved)) = length saved)
  /\ (isBookmarked lesson saved = false -> lesson <> None ->
      length (toggleBookmark lesson saved) = S (length saved))
  /\ ((confirmed = false \/ (length saved <= index)%nat) ->
      deleteBookmark confirmed index saved = saved)
  /\ (confirmed = true -> (index < length saved)%nat ->
      S (length (deleteBookmark confirmed index saved)) = length saved).
Proof.
  intros Hnd. split; [|split; [|split; [|split; [|split]]]].
  - destruct lesson as [l|]; [|assumption]. unfold toggleBookmark, isBookmarked.
    destruct (existsb (fun x => sameLesson x l) saved) eqn:E.
    + now apply NoDup_key_filter.
    + simpl. constructor; [|assumption]. intros Hin.
      apply existsb_same_key in Hin. congruence.
  - unfold deleteBookmark. destruct confirmed; [|assumption].
    now apply NoDup_key_delete.
  - destruct lesson as [l|]; [|discriminate]. unfold toggleBookmark. intros Hb.
    rewrite Hb. now apply length_filter_out_one.
  - destruct lesson as [l|]; [|congruence]. unfold toggleBookmark. intros Hb _.
    now rewrite Hb.
  - unfold deleteBookmark. intros [-> | Hi]; [reflexivity|].
    destruct confirmed; [|reflexivity].
    revert index Hi. induction saved as [|x saved IH]; intros [|i] Hi;
      simpl in *; try reflexivity; try lia.
    f_equal. inversion Hnd; subst. apply IH; [assumption | lia].
  - unfold deleteBookmark. intros -> Hi.
    rewrite length_delete; [lia|]. now apply lookup_lt_is_Some_2.
Qed.

Lemma bookmarks_stay_distinct_witness :
  S (length (toggleBookmark
               (Some (mkLesson (lit "Leases") (lit "Law") (lit "Final") []))
               [mkLesson (lit "Leases") (lit "Law") (lit "Foundation") [];
                mkLesson (lit "Audit") (lit "Law") (lit "Final") []]))
  = 2%nat.
Proof.
  apply (proj1 (proj2 (proj2 (bookmarks_stay_distinct
           (Some (mkLesson (lit "Leases") (lit "Law") (lit "Final") []))
           [mkLesson (lit "Leases") (lit "Law") (lit "Foundation") [];
            mkLesson (lit "Audit") (lit "Law") (lit "Final") []]
           true 0%nat
           ltac:(repeat constructor; simpl; intuition discriminate))))).
  reflexivity.
Defined.

End Bookmarks.

(* ===================================================================== *)
(** ** Notes *)
(* ===================================================================== *)

Section NotesFacts.
Import Js JsNumber Notes.

Lemma find_map_same_test (f : Note -> Note) (test : Note -> bool) (l : list Note) :
  (forall n, test (f n) = test n) ->
  List.find test (map f l) = f <$> List.find test l.
Proof.
  intros H. induction l as [|n l IH]; simpl; [reflexivity|].
  rewrite H. destruct (test n); [reflexivity | exact IH].
Qed.

(** An update that carries no id (the editor sends a title or a
    content) keeps the notes in number, order and ids, rewrites exactly the
    notes with the given id, stamping them with the time of the update,
    and leaves the same note active, updated if it is the one edited. *)
Theorem update_keeps_notes_in_place
        (noteId : jsstring) (updates : NoteUpdates) (now : Z) (st : NotesState) :
  keepsId updates ->
  map id (notes (handleUpdateNote noteId updates now st)) = map id (notes st)
  /\ length (notes (handleUpdateNote noteId updates now st)) = length (notes st)
  /\ (forall (i : nat) (n : Note),
         notes st !! i = Some n ->
         notes (handleUpdateNote noteId updates now st) !! i
         = Some (if bool_decide (id n = noteId)
                 then {| id := id n;
                         title := default (title n) (newTitle updates);
                         content := default (content n) (newContent updates);
                         lastModified := now |}
                 else n))
  /\ getActiveNote (handleUpdateNote noteId updates now st)
     = (fun n => if bool_decide (id n = noteId) then updated n updates now else n)
         <$> getActiveNote st.
Proof.
  unfold keepsId. intros Hid.
  assert (Hkeep : forall n,
            id (if bool_decide (id n = noteId) then updated n updates now else n)
            = id n).
  { intros n. destruct (bool_decide (id n = noteId)); [|reflexivity].
    unfold updated. simpl. now rewrite Hid. }
  split; [|split; [|split]].
  - unfold handleUpdateNote. simpl. rewrite map_map.
    apply map_ext. exact Hkeep.
  - unfold handleUpdateNote. simpl. apply length_map.
  - intros i n Hn. unfold handleUpdateNote. simpl.
    change (map ?f ?l) with (f <$> l). rewrite list_lookup_fmap, Hn. simpl.
    unfold updated. now rewrite Hid.
  - unfold getActiveNote, handleUpdateNote. simpl.
    apply find_map_same_test. intros n. now rewrite Hkeep.
Qed.

Lemma update_keeps_notes_in_place_witness :
  map id (notes (handleUpdateNote (lit "17") (mkUpdates None (Some (lit "Leases")) None None) 20
                   (handleCreateNote 17 18 (mkNotes [] None))))
  = map id (notes (handleCreateNote 17 18 (mkNotes [] None))).
Proof.
  apply (proj1 (update_keeps_notes_in_place (lit "17")
                  (mkUpdates None (Some (lit "Leases")) None None) 20
                  (handleCreateNote 17 18 (mkNotes [] None)) eq_refl)).
Defined.

Lemma find_none_all_false (test : Note -> bool) (l : list Note) :
  (forall n, test n = false) -> List.find test l = None.
Proof.
  intros H. induction l as [|n l IH]; simpl; [reflexivity|].
  now rewrite H.
Qed.

Lemma find_filter_kept (test keep : Note -> bool) (l : list Note) :
  (forall n, test n = true -> keep n = true) ->
  List.find test (List.filter keep l) = List.find test l.
Proof.
  intros H. induction l as [|n l IH]; simpl; [reflexivity|].
  destruct (keep n) eqn:Ek; simpl.
  - destruct (test n); [reflexivity | exact IH].
  - destruct (test n) eqn:Et; [|exact IH]. apply H in Et. congruence.
Qed.

(** A confirmed delete removes every note with the given id and keeps
    the others in their order; if the note deleted was the active one no
    note is active afterwards, otherwise the active note is the one it
    was.  A delete that is not confirmed changes nothing. *)
Theorem delete_removes_note_and_selection
        (noteId : jsstring) (st : NotesState) :
  (forall n : Note,
      In n (notes (handleDeleteNote true noteId st))
      <-> In n (notes st) /\ id n <> noteId)
  /\ (exists removed : list Note,
         notes st ≡ₚ notes (handleDeleteNote true noteId st) ++ removed
         /\ Forall (fun n => id n = noteId) removed)
  /\ (activeNoteId st = Some noteId ->
      activeNoteId (handleDeleteNote true noteId st) = None
      /\ getActiveNote (handleDeleteNote true noteId st) = None)
  /\ (activeNoteId st <> Some noteId ->
      activeNoteId (handleDeleteNote true noteId st) = activeNoteId st
      /\ getActiveNote (handleDeleteNote true noteId st) = getActiveNote st)
  /\ handleDeleteNote false noteId st = st.
Proof.
  split; [|split; [|split; [|split]]].
  - intros n. unfold handleDeleteNote. simpl.
    rewrite filter_In, negb_true_iff, bool_decide_eq_false. tauto.
  - exists (List.filter (fun n => bool_decide (id n = noteId)) (notes st)).
    unfold handleDeleteNote. simpl. split.
    + induction (notes st) as [|n l IH]; simpl; [reflexivity|].
      destruct (bool_decide (id n = noteId)); simpl.
      * rewrite IH at 1. apply Permutation_middle.
      * now rewrite IH at 1.
    + apply List.Forall_forall. intros n Hn.
      apply filter_In in Hn as [_ Hn]. now apply bool_decide_eq_true in Hn.
  - intros Ha. unfold getActiveNote, handleDeleteNote. simpl.
    rewrite bool_decide_eq_true_2 by assumption. split; [reflexivity|].
    apply find_none_all_false. intros n. now apply bool_decide_eq_false_2.
  - intros Ha. unfold getActiveNote, handleDeleteNote. simpl.
    rewrite bool_decide_eq_false_2 by assumption. split; [reflexivity|].
    apply find_filter_kept. intros n Hn. apply bool_decide_eq_true in Hn.
    apply negb_true_iff, bool_decide_eq_false_2. congruence.
  - reflexivity.
Qed.

Lemma delete_removes_note_and_selection_witness :
  getActiveNote (handleDeleteNote true (lit "17") (handleCreateNote 17 18 (mkNotes [] None)))
  = None.
Proof.
  apply (proj1 (proj2 (proj2 (delete_removes_note_and_selection (lit "17")
                                (handleCreateNote 17 18 (mkNotes [] None))))) eq_refl).
Defined.

(** A new note goes in front, empty, and is the active one: the editor
    opens on it even when an older note has the same id, two notes made in
    the same millisecond sharing theirs; the older notes follow
    unchanged, and an update through the editor then rewrites every note
    with that id. *)
Theorem created_note_is_the_active_one (now later : Z) (st : NotesState) :
  getActiveNote (handleCreateNote now later st)
  = Some {| id := numberToString now; title := []; content := [];
            lastModified := later |}
  /\ tl (notes (handleCreateNote now later st)) = notes st
  /\ (forall (updates : NoteUpdates) (at_ : Z) (old : Note),
         In old (notes st) -> id old = numberToString now ->
         In (updated old updates at_)
            (notes (handleUpdateNote (numberToString now) updates at_
                      (handleCreateNote now later st)))).
Proof.
  split; [|split].
  - unfold getActiveNote, handleCreateNote. simpl.
    now rewrite bool_decide_eq_true_2.
  - reflexivity.
  - intros updates at_ old Hin Hid. unfold handleUpdateNote, handleCreateNote.
    simpl. right. apply in_map_iff. exists old.
    rewrite bool_decide_eq_true_2 by assumption. tauto.
Qed.

Lemma created_note_is_the_active_one_witness :
  In (updated (mkNote (lit "17") (lit "old") [] 18)
              (mkUpdates None (Some (lit "new")) None None) 30)
     (notes (handleUpdateNote (numberToString 17)
               (mkUpdates None (Some (lit "new")) None None) 30
               (handleCreateNote 17 18
                  (handleCreateNote 17 18 (mkNotes [mkNote (lit "17") (lit "old") [] 18] None))))).
Proof.
  apply (proj2 (proj2 (created_note_is_the_active_one 17 18
           (handleCreateNote 17 18 (mkNotes [mkNote (lit "17") (lit "old") [] 18] None))))
           (mkUpdates None (Some (lit "new")) None None) 30
           (mkNote (lit "17") (lit "old") [] 18)).
  - simpl. right. left. reflexivity.
  - reflexivity.
Defined.

End NotesFacts.

(* ===================================================================== *)
(** ** The views agree: skipped questions and the clock on screen *)
(* ===================================================================== *)

Section ViewsAgree.
Import Session ExamView ResultsView Samples.

Lemma countSkipped_from (st : ExamState) (qs : list Question) (n : nat) :
  length (List.filter (isMark MarkSkipped)
            (imap (fun i => reviewMark st (n + i)) qs))
  = length (List.filter
              (fun i => negb (bool_decide (is_Some (answers st !! Z.of_nat i))))
              (seq n (length qs))).
Proof.
  revert n. induction qs as [|q rest IH]; intros n; [reflexivity|].
  cbn [imap length seq List.filter].
  rewrite (imap_ext ((fun i => reviewMark st (n + i)) ∘ S)
                    (fun i => reviewMark st (S n + i)))
    by (intros i x _; simpl; f_equal; lia).
  rewrite Nat.add_0_r. unfold reviewMark at 1.
  destruct (answers st !! Z.of_nat n) as [a|] eqn:Ea.
  - rewrite (bool_decide_eq_true_2 (is_Some (Some a))) by (unfold is_Some; eauto).
    cbn [negb].
    destruct (bool_decide (a = correctOptionIndex q)); cbn [isMark]; apply IH.
  - rewrite (bool_decide_eq_false_2 (is_Some (@None Z)))
      by (intros [x Hx]; discriminate).
    cbn [negb isMark length]. f_equal. apply IH.
Qed.

Lemma answered_indices_size (s : ExamState) :
  answersInRange s ->
  size (answers s)
  = length (List.filter
              (fun i => bool_decide (is_Some (answers s !! Z.of_nat i)))
              (seq 0 (length (questions s)))).
Proof.
  intros Ha.
  set (L := List.filter _ _).
  rewrite <- size_dom.
  assert (E : dom (answers s) = (list_to_set (Z.of_nat <$> L) : gset Z)).
  { apply set_eq. intros k.
    rewrite elem_of_dom, elem_of_list_to_set, list_elem_of_fmap. split.
    - intros Hk. pose proof (Ha k Hk) as Hr. unfold inRange in Hr.
      exists (Z.to_nat k). split; [lia|].
      apply list_elem_of_In, filter_In. split; [apply in_seq; lia|].
      apply bool_decide_eq_true. now rewrite Z2Nat.id by lia.
    - intros (i & -> & Hi). apply list_elem_of_In, filter_In in Hi as [_ Hi].
      now apply bool_decide_eq_true in Hi. }
  rewrite E, size_list_to_set, length_fmap; [reflexivity|].
  apply NoDup_fmap_2; [apply _|].
  apply NoDup_ListNoDup, List.NoDup_filter, List.seq_NoDup.
Qed.

(** For a session whose answers are all at indices of its questions,
    the number of unanswered questions the submit buttons announce is the
    number of questions the review of the results marks as skipped. *)
Theorem unanswered_are_the_skipped (s : ExamState) :
  answersInRange s -> unanswered s = countMarks MarkSkipped s.
Proof.
  intros Hwf. unfold unanswered, answeredCount, countMarks, reviewMarks.
  rewrite (answered_indices_size s Hwf).
  change (imap (reviewMark s) (questions s))
    with (imap (fun i => reviewMark s (0 + i)) (questions s)).
  rewrite (countSkipped_from s (questions s) 0).
  pose proof (List.filter_length
                (fun i => bool_decide (is_Some (answers s !! Z.of_nat i)))
                (seq 0 (length (questions s)))) as Hsum.
  rewrite length_seq in Hsum. lia.
Qed.

Lemma unanswered_are_the_skipped_witness :
  unanswered (handleAnswer 0 9 twoQuestions)
  = countMarks MarkSkipped (handleAnswer 0 9 twoQuestions).
Proof.
  apply (unanswered_are_the_skipped (handleAnswer 0 9 twoQuestions)).
  unfold answersInRange, inRange. simpl. intros k [x Hk].
  apply lookup_insert_Some in Hk as [[<- _] | [_ Hk]];
    [lia | rewrite lookup_empty in Hk; discriminate].
Defined.

Lemma tick_time_decreases (s : ExamState) :
  0 <= timeRemaining s -> 0 <= timeRemaining (tick s) <= timeRemaining s.
Proof.
  intros H. unfold tick, timerUpdater. destruct (timerArmed s); [|lia].
  destruct (Z.leb_spec (timeRemaining s) 1); simpl; lia.
Qed.

Lemma click_time_decreases (v : Screen) (s s' : ExamState) (c : Click) :
  0 <= timeRemaining s -> click v s c = Some s' ->
  0 <= timeRemaining s' <= timeRemaining s.
Proof.
  intros Ht. unfold click.
  destruct (negb (bool_decide (status s = active))); [discriminate|].
  destruct (currentQuestion s) as [q|]; [|discriminate].
  destruct v, c; try discriminate.
  all: repeat match goal with
         | |- (if ?b then _ else _) = Some _ -> _ => destruct b eqn:?
         end; try discriminate.
  all: intros H; injection H as <-; simpl; try lia.
  all: try (unfold viewHandleSubmit;
            destruct (unanswered s =? 0); [|destruct confirmed]; simpl; lia).
  destruct confirmed; simpl; lia.
Qed.

Lemma click_keeps_time (v : Screen) (s s' : ExamState) (c : Click) :
  click v s c = Some s' -> status s' = active ->
  timeRemaining s' = timeRemaining s.
Proof.
  unfold click.
  destruct (negb (bool_decide (status s = active))); [discriminate|].
  destruct (currentQuestion s) as [q|]; [|discriminate].
  destruct v, c; try discriminate.
  all: repeat match goal with
         | |- (if ?b then _ else _) = Some _ -> _ => destruct b eqn:?
         end; try discriminate.
  all: intros E; injection E as <-; try reflexivity.
  all: try (unfold viewHandleSubmit;
            destruct (unanswered s =? 0); [|destruct confirmed];
            reflexivity).
  destruct confirmed; [discriminate | reflexivity].
Qed.

Lemma tick_still_active (s : ExamState) :
  0 < timeRemaining s -> status (tick s) = active ->
  timeRemaining (tick s) = timeRemaining s - 1 /\ 0 < timeRemaining (tick s).
Proof.
  intros Ht. unfold tick, timerArmed, timerUpdater.
  destruct (bool_decide (status s = active)) eqn:Hact; simpl.
  - rewrite (proj2 (Z.ltb_lt _ _) Ht).
    destruct (Z.leb_spec (timeRemaining s) 1); simpl; [discriminate | lia].
  - intros Hs. apply bool_decide_eq_false in Hact. contradiction.
Qed.

(** On screen the clock only runs down: after any presses and seconds
    the time remaining is neither negative nor more than it was; and a
    session whose clock was running and that is still active has used
    exactly one second of it for each second that passed. *)
Theorem clock_on_screen_only_runs_down
        (v : Screen) (evs : list UiEvent) (s s' : ExamState) :
  uiRun v s evs = Some s' ->
  (0 <= timeRemaining s -> 0 <= timeRemaining s' <= timeRemaining s)
  /\ (0 < timeRemaining s -> status s' = active ->
      timeRemaining s'
      = timeRemaining s
        - Z.of_nat (length (List.filter
                              (fun e => match e with Second => true | _ => false end)
                              evs))
      /\ 0 < timeRemaining s').
Proof.
  revert s. induction evs as [|e evs IH]; intros s H; simpl in H.
  - injection H as <-. simpl. split; [lia|]. intros Ht _. lia.
  - destruct (uiStep v s e) as [s1|] eqn:E; [|discriminate].
    destruct (IH s1 H) as [IH1 IH2].
    assert (Hs1 : status s' = active -> status s1 = active).
    { intros Ha. destruct (decide (status s1 = active)) as [|Hn]; [assumption|].
      destruct (uiRun_finished_stays v evs s1 s' Hn H) as [-> _]. congruence. }
    destruct e as [c|]; simpl in E.
    + split.
      * intros Ht. pose proof (click_time_decreases v s s1 c Ht E). lia.
      * intros Ht Ha. cbn [List.filter].
        pose proof (click_keeps_time v s s1 c E (Hs1 Ha)) as Heq.
        rewrite <- Heq in *. now apply IH2.
    + injection E as <-. split.
      * intros Ht. pose proof (tick_time_decreases s Ht). lia.
      * intros Ht Ha. cbn [List.filter length].
        destruct (tick_still_active s Ht (Hs1 Ha)) as [Heq Hpos].
        destruct (IH2 Hpos Ha) as [H1 H2]. split; lia.
Qed.

Lemma clock_on_screen_only_runs_down_witness :
  timeRemaining (handleAnswer 0 2 (tick (tick twoQuestions)))
  = timeRemaining twoQuestions - Z.of_nat 2
  /\ 0 < timeRemaining (handleAnswer 0 2 (tick (tick twoQuestions))).
Proof.
  apply (proj2 (clock_on_screen_only_runs_down ExamScreen
                  [Second; Second; Press (ClickOption 2)]
                  twoQuestions _ eq_refl)).
  - simpl. lia.
  - reflexivity.
Defined.

End ViewsAgree.

(* ===================================================================== *)
(** ** Every session starts with a running clock *)
(* ===================================================================== *)

Section SessionStart.
Import Session Setup Samples.

Lemma duration_checked_upto_50 : forallb durationChecked (seq 1 50) = true.
Proof. vm_compute. reflexivity. Qed.

Lemma handleStart_duration (q : Z) :
  1 <= q <= 50 ->
  handleStart q = Some {| questionCount := q;
                          durationMinutes := (3 * q + 1) / 2;
                          topic := None |}.
Proof.
  intros Hq. pose proof duration_checked_upto_50 as H.
  rewrite forallb_forall in H. specialize (H (Z.to_nat q)).
  unfold durationChecked in H. rewrite Z2Nat.id in H by lia.
  assert (Hin : In (Z.to_nat q) (seq 1 50)) by (apply in_seq; lia).
  specialize (H Hin). unfold handleStart in *.
  destruct (MathCeil _) as [| |d]; try discriminate H.
  simpl in H. apply andb_prop in H as [_ H]. apply Z.eqb_eq in H. now subst.
Qed.

(** A session configured on the setup screen for one to fifty questions
    gets a minute and a half a question, rounded up to the minute; started
    with it, or with the configuration of a lesson's quiz, the session is
    active with its clock running, and left alone it is submitted by the
    clock after exactly its duration, not a second before. *)
Theorem configured_sessions_time_out
        (q : Z) (lesson : Classes.LessonDoc)
        (qs : list Question) (now : Z) :
  1 <= q <= 50 ->
  exists cfg quiz : ExamConfig,
    handleStart q = Some cfg
    /\ handleTakeQuiz (Some lesson) = Some quiz
    /\ durationMinutes cfg = (3 * q + 1) / 2
    /\ 90 * q <= timeRemaining (generationSucceeded qs cfg now) < 90 * q + 60
    /\ timeRemaining (generationSucceeded qs quiz now) = 300
    /\ (forall c : ExamConfig,
           c = cfg \/ c = quiz ->
           let s := generationSucceeded qs c now in
           timerArmed s = true
           /\ status (Nat.iter (Z.to_nat (timeRemaining s) - 1) tick s) = active
           /\ Nat.iter (Z.to_nat (timeRemaining s)) tick s
              = withTimeRemaining 0 (handleSubmit s)).
Proof.
  intros Hq. eexists _, _. split; [now apply handleStart_duration|].
  split; [reflexivity|]. cbn [durationMinutes generationSucceeded timeRemaining].
  assert (Hd : 3 * q <= 2 * ((3 * q + 1) / 2) <= 3 * q + 1).
  { pose proof (Z.div_mod (3 * q + 1) 2). pose proof (Z.mod_pos_bound (3 * q + 1) 2).
    lia. }
  split; [reflexivity|]. split; [lia|]. split; [reflexivity|].
  intros c Hc. set (s := generationSucceeded qs c now).
  change (durationMinutes c * 60) with (timeRemaining s).
  assert (Hpos : 0 < timeRemaining s).
  { destruct Hc as [-> | ->]; subst s; simpl; lia. }
  assert (Hact : status s = active) by reflexivity.
  split; [|split].
  - unfold timerArmed. rewrite bool_decide_eq_true_2 by assumption.
    now apply Z.ltb_lt.
  - destruct (ticks_countdown s (Z.to_nat (timeRemaining s) - 1) Hact Hpos)
      as [Hlt _].
    rewrite Hlt by lia. reflexivity.
  - destruct (ticks_countdown s (Z.to_nat (timeRemaining s)) Hact Hpos)
      as [_ Hge].
    apply Hge. lia.
Qed.

Lemma configured_sessions_time_out_witness :
  exists cfg quiz : ExamConfig,
    handleStart 5 = Some cfg
    /\ handleTakeQuiz (Some (Classes.mkLesson [] [] [] [])) = Some quiz
    /\ durationMinutes cfg = (3 * 5 + 1) / 2
    /\ 90 * 5 <= timeRemaining (generationSucceeded [question 1] cfg 0) < 90 * 5 + 60
    /\ timeRemaining (generationSucceeded [question 1] quiz 0) = 300
    /\ (forall c : ExamConfig,
           c = cfg \/ c = quiz ->
           let s := generationSucceeded [question 1] c 0 in
           timerArmed s = true
           /\ status (Nat.iter (Z.to_nat (timeRemaining s) - 1) tick s) = active
           /\ Nat.iter (Z.to_nat (timeRemaining s)) tick s
              = withTimeRemaining 0 (handleSubmit s)).
Proof.
  apply (configured_sessions_time_out 5 (Classes.mkLesson [] [] [] [])
           [question 1] 0).
  lia.
Defined.

End SessionStart.

(* ===================================================================== *)
(** ** The lesson-section parser: the header test at every line *)
(* ===================================================================== *)

Section ParserHeaderTest.
Import Js Lesson.

(** A header line closes what came before it and starts afresh. *)
Lemma parseLines_at_header (before : list jsstring) (line : jsstring)
      (after : list jsstring) :
  isHeader line = true ->
  parseLines (before ++ line :: after)
  = parseLines before ++ parseLines (line :: after).
Proof.
  intros Hl. unfold parseLines. rewrite fold_left_app. cbn [fold_left].
  rewrite !(processLine_header _ _ Hl).
  set (p := fold_left processLine before emptyParser).
  cbn [pushSection emptyParser currentTitle truthy sections].
  change {| sections := sections (pushSection p);
            currentTitle := trim (substring 3 (trim line));
            currentContent := [] |}
    with {| sections := sections (pushSection p);
            currentTitle :=
              currentTitle {| sections := [];
                              currentTitle := trim (substring 3 (trim line));
                              currentContent := [] |};
            currentContent :=
              currentContent {| sections := [];
                                currentTitle := trim (substring 3 (trim line));
                                currentContent := [] |} |}.
  rewrite <- (app_nil_r (sections (pushSection p))) at 1.
  change {| sections := sections (pushSection p) ++ [];
            currentTitle := currentTitle ?q;
            currentContent := currentContent ?q |}
    with (emittedBefore (sections (pushSection p)) q).
  now rewrite loop_emittedBefore, pushSection_emittedBefore.
Qed.

Lemma notHeader_all (lines : list jsstring) :
  Forall (fun l => ~ beginsWithMarker l) lines -> Forall notHeader lines.
Proof.
  intros H. induction H as [|l ls Hl _ IH]; constructor; [|exact IH].
  now apply notHeader_iff.
Qed.

(** C10.  A line is taken for a section header exactly when, trimmed,
    it begins with the marker and its space, wherever it stands among the
    lines.  Such a line closes whatever came before it and opens its own
    section: the parse is the parse of the lines before it followed by the
    parse from the line on.  Any other line is content: after a header it
    joins that header's body, whatever lines of body came before it or
    follow it, and before the first header it is dropped.  So the titles
    of the sections are those of exactly the lines that begin so, in
    order.  An indented header is a header, and a line with no space after
    the marker is content. *)
Theorem header_test_is_trimmed_prefix :
  (forall (before : list jsstring) (line : jsstring) (after : list jsstring),
      beginsWithMarker line ->
      parseLines (before ++ line :: after)
      = parseLines before ++ parseLines (line :: after))
  /\ (forall (before : list jsstring) (header : jsstring)
             (body : list jsstring) (line : jsstring)
             (more rest : list jsstring),
         beginsWithMarker header ->
         Forall (fun l => ~ beginsWithMarker l) body ->
         ~ beginsWithMarker line ->
         Forall (fun l => ~ beginsWithMarker l) more ->
         (rest = [] \/ exists h' rest', rest = h' :: rest' /\ beginsWithMarker h') ->
         parseLines (before ++ header :: (body ++ line :: more) ++ rest)
         = parseLines before
           ++ sectionOf header (body ++ line :: more) :: parseLines rest)
  /\ (forall (before : list jsstring) (line : jsstring) (after : list jsstring),
         Forall (fun l => ~ beginsWithMarker l) before ->
         ~ beginsWithMarker line ->
         parseLines (before ++ line :: after) = parseLines after)
  /\ (forall lines : list jsstring,
         map title (parseLines lines)
         = map (fun l => trim (substring 3 (trim l)))
               (List.filter isHeader lines))
  /\ (forall line : jsstring, isHeader line = true <-> beginsWithMarker line)
  /\ (forall open line : jsstring,
         isHeader open = true ->
         (beginsWithMarker line ->
          parseLines [open; line] = [sectionOf open []; sectionOf line []])
         /\ (~ beginsWithMarker line ->
             parseLines [open; line] = [sectionOf open [line]]))
  /\ (forall line : jsstring, parseLines [line] <> [] <-> beginsWithMarker line)
  /\ parseMarkdownToSections (lit "## A" ++ LF :: lit "   ## Title")
     = [ {| title := lit "A"; content := [] |};
         {| title := lit "Title"; content := [] |} ]
  /\ parseMarkdownToSections (lit "## A" ++ LF :: lit "##Title")
     = [ {| title := lit "A"; content := lit "##Title" |} ].
Proof.
  split; [|split; [|split; [|split; [|split; [|split; [|split]]]]]].
  - intros before line after Hl. apply parseLines_at_header.
    now apply isHeader_beginsWithMarker.
  - intros before header body line more rest Hh Hbody Hline Hmore Hrest.
    apply isHeader_beginsWithMarker in Hh.
    rewrite (parseLines_at_header before header _ Hh). f_equal.
    apply parseLines_section; [assumption | |].
    + apply Forall_app. split; [now apply notHeader_all|].
      constructor; [now apply notHeader_iff | now apply notHeader_all].
    + destruct Hrest as [-> | (h' & rest' & -> & Hh')]; [now left|].
      right. exists h', rest'. split; [reflexivity|].
      now apply isHeader_beginsWithMarker.
  - intros before line after Hbefore Hline.
    change (before ++ line :: after) with (before ++ [line] ++ after).
    rewrite app_assoc. apply parseLines_skip. apply Forall_app.
    split; [now apply notHeader_all|].
    constructor; [now apply notHeader_iff | constructor].
  - intros lines. unfold parseLines. now rewrite titles_from_state.
  - apply isHeader_beginsWithMarker.
  - intros open line Hopen. split.
    + intros Hline. apply isHeader_beginsWithMarker in Hline.
      change (parseLines [open; line])
        with (parseLines (open :: [] ++ [line])).
      rewrite (parseLines_section open [] [line]);
        [| assumption | constructor | right; now exists line, []].
      change (parseLines [line]) with (parseLines (line :: [] ++ [])).
      rewrite (parseLines_section line [] []);
        [reflexivity | assumption | constructor | now left].
    + intros Hline. apply notHeader_iff in Hline.
      change (parseLines [open; line])
        with (parseLines (open :: [line] ++ [])).
      rewrite (parseLines_section open [line] []);
        [reflexivity | assumption | now constructor | now left].
  - intros line. split.
    + intros H. apply isHeader_beginsWithMarker.
      destruct (isHeader line) eqn:E; [reflexivity|].
      exfalso. apply H.
      rewrite <- (app_nil_r [line]). now rewrite parseLines_skip by now constructor.
    + intros H. apply isHeader_beginsWithMarker in H.
      change (parseLines [line]) with (parseLines (line :: [] ++ [])).
      rewrite (parseLines_section line [] []);
        [discriminate | assumption | constructor | now left].
  - split; vm_compute; reflexivity.
Qed.

Lemma header_test_is_trimmed_prefix_witness :
  parseLines ([lit "## Intro"; lit "Hello"] ++ lit "  ## Body" :: [lit "World"])
  = parseLines [lit "## Intro"; lit "Hello"]
    ++ parseLines (lit "  ## Body" :: [lit "World"])
  /\ parseLines ([lit "## Intro"; lit "Hello"]
                 ++ lit "## Body"
                 :: ([lit "one"] ++ lit "##two" :: [lit "three"])
                 ++ [lit "## End"])
     = parseLines [lit "## Intro"; lit "Hello"]
       ++ sectionOf (lit "## Body") ([lit "one"] ++ lit "##two" :: [lit "three"])
       :: parseLines [lit "## End"]
  /\ parseLines ([lit "preface"] ++ lit "##none" :: [lit "## Intro"; lit "Hello"])
     = parseLines [lit "## Intro"; lit "Hello"].
Proof.
  pose proof header_test_is_trimmed_prefix as (Hat & Hin & Hbefore & _).
  assert (Hno : forall l : jsstring, isHeader l = false -> ~ beginsWithMarker l).
  { intros l E [rest H]. unfold isHeader in E.
    assert (Ht : startsWith headerMarker (trim l) = true)
      by (apply startsWith_prefix; now exists rest).
    congruence. }
  split; [|split].
  - apply Hat. exists (lit "Body"). reflexivity.
  - apply Hin.
    + exists (lit "Body"). reflexivity.
    + constructor; [now apply Hno | constructor].
    + now apply Hno.
    + constructor; [now apply Hno | constructor].
    + right. exists (lit "## End"), []. split; [reflexivity|].
      exists (lit "End"). reflexivity.
  - apply Hbefore.
    + constructor; [now apply Hno | constructor].
    + now apply Hno.
Defined.

End ParserHeaderTest.
